(** * Archivist: the [!save] / [!load] message handler of [main.py]

    A shallow embedding of [MyClient.on_message]: the note store kept in
    [data.json], the grouping of stored entries by author, the textual
    rendering and the pagination of the reply.

    Python values are modelled as the handler meets them:
    - a [str] is a list of code points, so that [len], slicing and
      [strip] count characters as Python does;
    - a value decoded by [json.load] is a [json] tree, a [dict] keeping its
      insertion order;
    - the handler's effects (the file, the messages sent, an early
      [return], an exception) are threaded by a small monad.

    The operations of the imported libraries ([json], [zoneinfo],
    [datetime]) are the fields of the class [Runtime]; each call that can
    raise gives a result, the exception or the value, and an exception
    that no clause of the handler catches ends the handler. The channel
    takes every message, and a file that exists can be opened. *)

From Stdlib Require Import String Ascii DecimalString.
From Stdlib Require Import List NArith ZArith Bool Lia.
From Stdlib Require Import Floats.SpecFloat.
From Stdlib Require Import Permutation.
Import ListNotations.

Set Implicit Arguments.
#[local] Set Warnings "-register-all".

(** ** Python strings *)

Definition pystr := list N.

(** A literal of the source, as code points. *)
Definition str (s : string) : pystr :=
  List.map N_of_ascii (list_ascii_of_string s).

(** [a == b] on strings. *)
Fixpoint pystr_eqb (a b : pystr) : bool :=
  match a, b with
  | [], [] => true
  | x :: a', y :: b' => N.eqb x y && pystr_eqb a' b'
  | _, _ => false
  end.

(** [s.startswith(prefix)] *)
Fixpoint startswith (s prefix : pystr) : bool :=
  match prefix, s with
  | [], _ => true
  | p :: prefix', c :: s' => N.eqb p c && startswith s' prefix'
  | _ :: _, [] => false
  end.

(** The characters [str.strip()] removes: those for which
    [str.isspace] holds. *)
Definition isspace (c : N) : bool :=
  ((9 <=? c) && (c <=? 13) || (28 <=? c) && (c <=? 32)
   || (c =? 133) || (c =? 160) || (c =? 5760)
   || (8192 <=? c) && (c <=? 8202)
   || (c =? 8232) || (c =? 8233) || (c =? 8239) || (c =? 8287)
   || (c =? 12288))%N.

Fixpoint lstrip (s : pystr) : pystr :=
  match s with
  | c :: s' => if isspace c then lstrip s' else s
  | [] => []
  end.

Definition rstrip (s : pystr) : pystr := rev (lstrip (rev s)).

(** [s.strip()] *)
Definition strip (s : pystr) : pystr := rstrip (lstrip s).

(** [sep.join(parts)] *)
Fixpoint join (sep : pystr) (parts : list pystr) : pystr :=
  match parts with
  | [] => []
  | [p] => p
  | p :: rest => p ++ sep ++ join sep rest
  end.

(** [str(n)] for a non-negative and for an arbitrary [int]. *)
Definition str_of_nat (n : nat) : pystr :=
  str (NilZero.string_of_uint (Nat.to_uint n)).

Definition str_of_int (z : Z) : pystr :=
  str (NilZero.string_of_int (Z.to_int z)).

(** ** Decoded JSON values *)

Inductive json : Type :=
| JNull
| JBool (b : bool)
| JInt (z : Z)
| JFloat (f : spec_float)
| JStr (s : pystr)
| JList (items : list json)
| JDict (kvs : list (pystr * json)).

(** Truth value of a decoded value, as [if v:] and [v or d] test it. *)
Definition truthy (v : json) : bool :=
  match v with
  | JNull => false
  | JBool b => b
  | JInt z => negb (Z.eqb z 0)
  | JFloat (S754_zero _) => false
  | JFloat _ => true
  | JStr s => match s with [] => false | _ => true end
  | JList l => match l with [] => false | _ => true end
  | JDict kvs => match kvs with [] => false | _ => true end
  end.

(** [d.get(k)] as an option, [k in d], and [d.get(k)] itself, which is
    [None] for a missing key. *)
Fixpoint dict_lookup (k : pystr) (kvs : list (pystr * json)) : option json :=
  match kvs with
  | [] => None
  | (k', v) :: rest => if pystr_eqb k' k then Some v else dict_lookup k rest
  end.

Definition dict_contains (k : pystr) (kvs : list (pystr * json)) : bool :=
  match dict_lookup k kvs with Some _ => true | None => false end.

Definition dict_get (k : pystr) (kvs : list (pystr * json)) : json :=
  match dict_lookup k kvs with Some v => v | None => JNull end.

(** ** Keys of the grouping dict

    The hashable decoded values. Lists and dicts are not hashable. *)

Inductive pykey : Type :=
| KNone
| KBool (b : bool)
| KInt (z : Z)
| KFloat (f : spec_float)
| KStr (s : pystr).

Definition hashable (v : json) : option pykey :=
  match v with
  | JNull => Some KNone
  | JBool b => Some (KBool b)
  | JInt z => Some (KInt z)
  | JFloat f => Some (KFloat f)
  | JStr s => Some (KStr s)
  | JList _ | JDict _ => None
  end.

(** Whether a float has the value of the integer [z]. *)
Definition float_is_int (f : spec_float) (z : Z) : bool :=
  match f with
  | S754_zero _ => Z.eqb z 0
  | S754_finite s m e =>
      let v := if s then Z.neg m else Z.pos m in
      if (0 <=? e)%Z then Z.eqb z (v * 2 ^ e) else Z.eqb (z * 2 ^ (- e)) v
  | S754_infinity _ | S754_nan => false
  end.

(** Two floats being the same dict key: equal, or both the one [nan]
    object of the decoder. *)
Definition float_same_key (f g : spec_float) : bool :=
  match f, g with
  | S754_nan, S754_nan => true
  | _, _ => SFeqb f g
  end.

Definition Z_of_bool (b : bool) : Z := if b then 1%Z else 0%Z.

(** Whether two keys are the same key of a dict: [True], [1] and [1.0]
    are one key. *)
Definition key_eqb (a b : pykey) : bool :=
  match a, b with
  | KNone, KNone => true
  | KStr s, KStr t => pystr_eqb s t
  | KBool x, KBool y => Bool.eqb x y
  | KBool x, KInt z | KInt z, KBool x => Z.eqb (Z_of_bool x) z
  | KBool x, KFloat f | KFloat f, KBool x => float_is_int f (Z_of_bool x)
  | KInt x, KInt y => Z.eqb x y
  | KInt z, KFloat f | KFloat f, KInt z => float_is_int f z
  | KFloat f, KFloat g => float_same_key f g
  | _, _ => false
  end.

(** ** Exceptions and the handler monad *)

Inductive exn : Type :=
| FileNotFoundError
| JSONDecodeError
| ZoneInfoNotFoundError
| ValueError
| TypeError
| UnicodeDecodeError
| UnicodeEncodeError
| RecursionError
| OverflowError
| OSError.

(** [isinstance(e, ValueError)]: what [except ValueError] catches.
    [JSONDecodeError], [UnicodeDecodeError] and [UnicodeEncodeError] are
    subclasses of [ValueError]. *)
Definition is_ValueError (e : exn) : bool :=
  match e with
  | ValueError | JSONDecodeError | UnicodeDecodeError | UnicodeEncodeError =>
      true
  | _ => false
  end.

(** A computation without effects that may raise. *)
Definition result (A : Type) : Type := exn + A.

Definition rbind {A B} (r : result A) (k : A -> result B) : result B :=
  match r with
  | inl e => inl e
  | inr a => k a
  end.

(** [for x in xs: acc = body(acc, x)], stopping at the first exception. *)
Fixpoint for_each {A S} (body : S -> A -> result S) (xs : list A) (acc : S)
  : result S :=
  match xs with
  | [] => inr acc
  | x :: rest => rbind (body acc x) (for_each body rest)
  end.

(** The handler's world: the content of [data.json] ([None] while the file
    does not exist) and the messages sent to the channel, oldest first. *)
Record world (T : Type) : Type := World {
  data_file : option T;
  sent : list pystr;
}.

(** How a piece of the handler ends: it falls through with a value, it
    executes [return], or it raises. *)
Inductive outcome (A : Type) : Type :=
| Done (a : A)
| Returned
| Raised (e : exn).
Arguments Returned {A}.
Arguments Raised {A} e.

Definition M (T A : Type) : Type := world T -> outcome A * world T.

Definition ret {T A} (a : A) : M T A := fun w => (Done a, w).

Definition bind {T A B} (m : M T A) (k : A -> M T B) : M T B :=
  fun w =>
    match m w with
    | (Done a, w') => k a w'
    | (Returned, w') => (Returned, w')
    | (Raised e, w') => (Raised e, w')
    end.

Definition return_ {T A} : M T A := fun w => (Returned, w).

Definition raise {T A} (e : exn) : M T A := fun w => (Raised e, w).

Definition lift {T A} (r : result A) : M T A :=
  match r with
  | inl e => raise e
  | inr a => ret a
  end.

(** [try: body  except ...:], the handler table giving the clause of an
    exception, if there is one. *)
Definition try_except {T A} (body : M T A)
    (clauses : exn -> option (M T A)) : M T A :=
  fun w =>
    match body w with
    | (Raised e, w') =>
        match clauses e with
        | Some h => h w'
        | None => (Raised e, w')
        end
    | r => r
    end.

(** [await message.channel.send(content)] *)
Definition send {T} (content : pystr) : M T unit :=
  fun w => (Done tt, World (data_file w) (sent w ++ [content])).

(** [open(data_file, 'r')] followed by reading the whole file. *)
Definition open_read {T} : M T T :=
  fun w =>
    match data_file w with
    | Some t => (Done t, w)
    | None => (Raised FileNotFoundError, w)
    end.

(** [open(data_file, 'w')] followed by a write that leaves [written] in
    the file, either complete or cut short by the exception [failure]:
    opening the file has emptied it by then. *)
Definition open_write {T} (written : T) (failure : option exn) : M T unit :=
  fun w =>
    (match failure with
     | None => Done tt
     | Some e => Raised e
     end,
     World (Some written) (sent w)).

Declare Scope handler_scope.
Delimit Scope handler_scope with handler.
Notation "x <- m ;; k" := (bind m (fun x => k))
  (at level 61, m at next level, right associativity) : handler_scope.
Notation "m ;; k" := (bind m (fun _ => k))
  (at level 61, right associativity) : handler_scope.

(** [for x in xs: body(x)] in the handler monad. *)
Fixpoint for_ {T A} (xs : list A) (body : A -> M T unit) : M T unit :=
  match xs with
  | [] => ret tt
  | x :: rest => bind (body x) (fun _ => for_ rest body)
  end.

(** [range(0, stop, step)] for a positive [step]. *)
Definition py_range (stop step : nat) : list nat :=
  List.map (fun k => k * step) (seq 0 ((stop + step - 1) / step)).

(** [s[i:i+n]] *)
Definition slice (s : pystr) (i n : nat) : pystr := firstn n (skipn i s).

(** ** Inbound messages *)

(** What [message.created_at] offers to lines 45-48: a value whose
    [isoformat()] returns, or one for which the call raises
    [AttributeError], [TypeError] or [ValueError] and [str(...)] is taken
    instead. *)
Inductive created : Type :=
| Datetime (isoformat : pystr)
| Opaque (as_str : pystr).

Record message : Type := Message {
  content : pystr;
  author : pystr;          (* str(message.author) *)
  created_at : created;
}.

(** ** Constants of the source *)

Definition nl : pystr := [10%N].
Definition cmd_save : pystr := str "!save".
Definition cmd_save_sp : pystr := str "!save ".
Definition cmd_load : pystr := str "!load".
Definition max_chunk : nat := 1900.
Definition unknown : pystr := str "unknown".

Definition usage_hint : pystr :=
  str "Please provide text to save. Usage: `!save your text here`".
Definition saved_reply : pystr := str "Saved to `data.json`.".
Definition no_data_reply : pystr :=
  str "No data found. `data.json` does not exist.".
Definition corrupted_reply : pystr :=
  str "Error reading `data.json`. The file may be corrupted.".
Definition unknown_timezone_reply (tz_arg : pystr) : pystr :=
  str "Unknown timezone: `" ++ tz_arg
  ++ str "`. Use an IANA timezone name like `Europe/Berlin`.".
Definition saved_header : pystr := str "Saved messages:".

(** The entry that [!save] stores. *)
Definition saved_entry_of (a timestamp payload : pystr) : json :=
  JDict [(str "author", JStr a);
         (str "timestamp", JStr timestamp);
         (str "payload", JStr payload)].

(** The wrapper that [!load] puts around a legacy element. *)
Definition legacy_entry (entry : json) : json :=
  JDict [(str "author", JStr unknown);
         (str "timestamp", JNull);
         (str "payload", entry)].

(** ** The libraries

    What the handler imports, as an interface: the handler is run and
    verified against any implementation of it. *)

Class Runtime : Type := {
  (** What [data.json] holds when it exists. [json_load] is the reading
      of lines 58-59 and 88-89, [json.load(f)] on the file opened as
      UTF-8: the decoded value, or the exception raised ([JSONDecodeError]
      for a text that is no JSON, [UnicodeDecodeError] for bytes that are
      no UTF-8, [RecursionError] for a nesting too deep, ...). *)
  text : Type;
  json_load : text -> result json;
  (** [json.dump(data, f, ensure_ascii=False, indent=2)] into the file
      just emptied by [open(data_file, 'w')]: what the file holds
      afterwards, and the exception that cut the writing short, if any
      ([UnicodeEncodeError] for a lone surrogate, [OSError] for a full
      disk, ...). *)
  json_dump : json -> text * option exn;
  (** [float.__repr__] of a finite float. *)
  float_repr : spec_float -> pystr;
  (** [ZoneInfo(key)]: the zone, or the exception raised
      ([ZoneInfoNotFoundError] for an unknown key, [ValueError] for a key
      that is no normalized relative path). *)
  tzinfo : Type;
  ZoneInfo : pystr -> result tzinfo;
  (** [datetime.fromisoformat(ts)] on a [str] (it raises [ValueError] on
      a text it does not accept), [dt.tzinfo is None],
      [dt.replace(tzinfo=timezone.utc)], [dt.astimezone(tz)]
      ([dt.astimezone()] for no zone; it raises [OverflowError] when the
      converted time leaves the years 1 to 9999) and
      [dt.strftime('%Y-%m-%d %H:%M:%S %Z')]. *)
  datetime : Type;
  fromisoformat : pystr -> result datetime;
  tzinfo_is_none : datetime -> bool;
  replace_utc : datetime -> datetime;
  astimezone : datetime -> option tzinfo -> result datetime;
  strftime : datetime -> result pystr;
}.

(** ** [json.dumps(v, ensure_ascii=False)] *)

Definition hex_digit (n : N) : N :=
  (if n <? 10 then 48 + n else 87 + n)%N.

(** One character inside a JSON string literal. *)
Definition escape_char (c : N) : pystr :=
  (if c =? 34 then str "\" ++ [34]
   else if c =? 92 then str "\\"
   else if c =? 10 then str "\n"
   else if c =? 13 then str "\r"
   else if c =? 9 then str "\t"
   else if c =? 8 then str "\b"
   else if c =? 12 then str "\f"
   else if c <? 32 then str "\u00" ++ [hex_digit (c / 16); hex_digit (c mod 16)]
   else [c])%N.

Definition quote (s : pystr) : pystr :=
  [34%N] ++ flat_map escape_char s ++ [34%N].

Section Dumps.

Context {rt : Runtime}.

Fixpoint json_dumps (v : json) : pystr :=
  match v with
  | JNull => str "null"
  | JBool true => str "true"
  | JBool false => str "false"
  | JInt z => str_of_int z
  | JFloat S754_nan => str "NaN"
  | JFloat (S754_infinity false) => str "Infinity"
  | JFloat (S754_infinity true) => str "-Infinity"
  | JFloat f => float_repr f
  | JStr s => quote s
  | JList items =>
      str "[" ++ join (str ", ") (List.map json_dumps items) ++ str "]"
  | JDict kvs =>
      str "{"
      ++ join (str ", ")
           (List.map (fun kv => quote (fst kv) ++ str ": " ++ json_dumps (snd kv))
              kvs)
      ++ str "}"
  end.

(** [str(key)], as an f-string formats the key of a group. *)
Definition str_of_key (k : pykey) : pystr :=
  match k with
  | KNone => str "None"
  | KBool true => str "True"
  | KBool false => str "False"
  | KInt z => str_of_int z
  | KFloat S754_nan => str "nan"
  | KFloat (S754_infinity false) => str "inf"
  | KFloat (S754_infinity true) => str "-inf"
  | KFloat f => float_repr f
  | KStr s => s
  end.

End Dumps.

(** ** A sample runtime

    One instance of the library operations, on which the handler can be
    run. The file is kept as what reading it gives: a text that is no
    JSON (a hundred thousand opening brackets and nothing else being
    nested too deep for the decoder), bytes that are no UTF-8, or a text
    with the value it decodes to.
    Writing fails on a lone surrogate, and of what had been written by
    then the sample keeps nothing. Two zones are known, a key that starts
    with a slash or with a step to a directory is refused as malformed, a
    timestamp is accepted when it is written with
    digits and the punctuation of an ISO date, and the last day of the
    year 9999 cannot be converted to Berlin time, nor the first day of the
    year 1 from an offset east of Greenwich. *)

Inductive sample_text : Type :=
| Garbled (raw : pystr)
| Binary (bytes : list N)
| Encoded (v : json).

Definition sample_load (t : sample_text) : result json :=
  match t with
  | Garbled raw =>
      if (100 * 1000 <=? List.length raw) && forallb (N.eqb 91) raw
      then inl RecursionError
      else inl JSONDecodeError
  | Binary _ => inl UnicodeDecodeError
  | Encoded v => inr v
  end.

Definition is_surrogate (c : N) : bool := ((55296 <=? c) && (c <=? 57343))%N.

Fixpoint has_surrogate (v : json) : bool :=
  match v with
  | JStr s => existsb is_surrogate s
  | JList items => existsb has_surrogate items
  | JDict kvs =>
      existsb (fun kv => existsb is_surrogate (fst kv) || has_surrogate (snd kv))
        kvs
  | _ => false
  end.

Definition sample_dump (v : json) : sample_text * option exn :=
  if has_surrogate v then (Garbled [], Some UnicodeEncodeError)
  else (Encoded v, None).

(** A table for the floats of the runs below. *)
Definition sample_float_repr (f : spec_float) : pystr :=
  match f with
  | S754_zero false => str "0.0"
  | S754_zero true => str "-0.0"
  | S754_finite false 4503599627370496 (-52) => str "1.0"
  | S754_finite false 4503599627370496 (-51) => str "2.0"
  | _ => str "1.5"
  end.

Definition sample_ZoneInfo (key : pystr) : result pystr :=
  if startswith key (str "/") || startswith key (str "./")
     || startswith key (str "../") || pystr_eqb key (str ".")
     || pystr_eqb key (str "..")
  then inl ValueError
  else if pystr_eqb key (str "Europe/Berlin") || pystr_eqb key (str "UTC")
  then inr key
  else inl ZoneInfoNotFoundError.

Definition iso_char (c : N) : bool :=
  ((48 <=? c) && (c <=? 58) || (c =? 45) || (c =? 43) || (c =? 46)
   || (c =? 84) || (c =? 32))%N.

Definition sample_fromisoformat (s : pystr) : result pystr :=
  if forallb iso_char s && (10 <=? List.length s) then inr s
  else inl ValueError.

Definition sample_is_naive (dt : pystr) : bool :=
  negb (existsb (N.eqb 43) dt).

Definition sample_replace_utc (dt : pystr) : pystr := dt ++ str "+00:00".

Definition sample_astimezone (dt : pystr) (tz : option pystr)
  : result pystr :=
  if startswith dt (str "0001-01-01T00:00:00+01:00") then inl OverflowError
  else
    match tz with
    | Some z =>
        if startswith dt (str "9999-12-31") && pystr_eqb z (str "Europe/Berlin")
        then inl OverflowError
        else inr (dt ++ str " " ++ z)
    | None => inr (dt ++ str " local")
    end.

Definition sample_strftime (dt : pystr) : result pystr := inr dt.

Definition sample_runtime : Runtime := {|
  text := sample_text;
  json_load := sample_load;
  json_dump := sample_dump;
  float_repr := sample_float_repr;
  tzinfo := pystr;
  ZoneInfo := sample_ZoneInfo;
  datetime := pystr;
  fromisoformat := sample_fromisoformat;
  tzinfo_is_none := sample_is_naive;
  replace_utc := sample_replace_utc;
  astimezone := sample_astimezone;
  strftime := sample_strftime;
|}.

(** ** The handler *)

Section Handler.

Local Open Scope handler_scope.

Context {rt : Runtime}.

(** *** Grouping (lines 96-107) *)

(** The dict [grouped]: its keys in insertion order, each with its list
    of entries. *)
Definition grouped : Type := list (pykey * list json).

(** [grouped.setdefault(key, []).append(ent)] *)
Fixpoint setdefault_append (g : grouped) (key : pykey) (ent : json) : grouped :=
  match g with
  | [] => [(key, [ent])]
  | (k, entries) :: rest =>
      if key_eqb k key then (k, entries ++ [ent]) :: rest
      else (k, entries) :: setdefault_append rest key ent
  end.

(** [isinstance(entry, dict) and 'author' in entry] *)
Definition is_author_entry (entry : json) : bool :=
  match entry with
  | JDict kvs => dict_contains (str "author") kvs
  | _ => false
  end.

(** [ent.get(k)] on a value known to be a dict. *)
Definition get (ent : json) (k : pystr) : json :=
  match ent with
  | JDict kvs => dict_get k kvs
  | _ => JNull
  end.

(** Lines 60-63 and 92-93: the decoded value as a list. *)
Definition as_list (v : json) : list json :=
  match v with
  | JList items => items
  | _ => [v]
  end.

(** The body of the loop over [data]. A list or dict as author cannot be
    a key: [setdefault] raises [TypeError]. *)
Definition group_entry (g : grouped) (entry : json) : result grouped :=
  if is_author_entry entry then
    let a := get entry (str "author") in
    let key := if truthy a then a else JStr unknown in
    match hashable key with
    | Some k => inr (setdefault_append g k entry)
    | None => inl TypeError
    end
  else
    inr (setdefault_append g (KStr unknown) (legacy_entry entry)).

Definition group_entries (data : list json) : result grouped :=
  for_each group_entry data [].

(** *** Rendering (lines 110-138) *)

(** Line 114: [ent.get('timestamp') if isinstance(ent, dict) else None] *)
Definition entry_timestamp (ent : json) : json :=
  match ent with
  | JDict _ => get ent (str "timestamp")
  | _ => JNull
  end.

(** Lines 120-129, the body of the [try], on a timestamp that is a
    [str]: any of the three library calls may raise. *)
Definition converted_timestamp (tz_obj : option tzinfo) (ts : pystr)
  : result pystr :=
  rbind (fromisoformat ts) (fun dt =>
  let dt := if tzinfo_is_none dt then replace_utc dt else dt in
  rbind (astimezone dt tz_obj) (fun local_dt =>
  strftime local_dt)).

(** Lines 116-131: [human_ts]. Line 130 catches a [ValueError] and
    nothing else; [fromisoformat] of a value that is not a [str] raises
    [TypeError]. *)
Definition human_timestamp (tz_obj : option tzinfo) (ts : json)
  : result (option pystr) :=
  if truthy ts then
    match ts with
    | JStr s =>
        match converted_timestamp tz_obj s with
        | inr human_ts => inr (Some human_ts)
        | inl e => if is_ValueError e then inr (Some s) else inl e
        end
    | _ => inl TypeError
    end
  else inr None.

(** [f'{human_ts}'] *)
Definition format_human_ts (human_ts : option pystr) : pystr :=
  match human_ts with
  | Some s => s
  | None => str "None"
  end.

(** Line 132: the payload of an entry of a group. *)
Definition payload_of (ent : json) : json :=
  match ent with
  | JDict kvs =>
      if dict_contains (str "payload") kvs then dict_get (str "payload") kvs
      else ent
  | _ => ent
  end.

Definition payload_line (idx : nat) (payload : json) : pystr :=
  str "  " ++ str_of_nat idx ++ str ") " ++ json_dumps payload.

Definition timestamp_line (human_ts : option pystr) : pystr :=
  str "       Timestamp: " ++ format_human_ts human_ts.

(** The body of the loop over [enumerate(entries, start=1)]. *)
Definition render_entry (tz_obj : option tzinfo) (parts : list pystr)
    (ie : nat * json) : result (list pystr) :=
  let (idx, ent) := ie in
  let ts := entry_timestamp ent in
  rbind (human_timestamp tz_obj ts) (fun human_ts =>
  let payload := payload_of ent in
  inr (parts ++ [payload_line idx payload; timestamp_line human_ts])).

(** [enumerate(entries, start=1)] *)
Definition enumerate1 {A} (xs : list A) : list (nat * A) :=
  combine (seq 1 (length xs)) xs.

Definition author_line (k : pykey) (n : nat) : pystr :=
  str "Author: " ++ str_of_key k ++ str " (" ++ str_of_nat n
  ++ str " message(s))".

(** The body of the loop over [grouped.items()]. *)
Definition render_group (tz_obj : option tzinfo) (parts : list pystr)
    (item : pykey * list json) : result (list pystr) :=
  let (k, entries) := item in
  let parts := parts ++ [author_line k (length entries)] in
  rbind (for_each (render_entry tz_obj) (enumerate1 entries) parts)
    (fun parts => inr (parts ++ [[]])).

Definition render_parts (tz_obj : option tzinfo) (g : grouped)
  : result (list pystr) :=
  for_each (render_group tz_obj) g [].

Definition friendly_text (parts : list pystr) : pystr := join nl parts.

(** *** Pagination (lines 140-155) *)

Definition lang_given (lang : option pystr) : option pystr :=
  match lang with
  | Some (c :: l) => Some (c :: l)
  | _ => None
  end.

(** The message sent for the chunk that starts at [i]. *)
Definition chunk_message (header : pystr) (txt : pystr)
    (lang : option pystr) (i : nat) : pystr :=
  let chunk := slice txt i max_chunk in
  if Nat.eqb i 0 then
    match lang_given lang with
    | Some l => header ++ nl ++ str "```" ++ l ++ nl ++ chunk ++ nl ++ str "```"
    | None => header ++ nl ++ chunk
    end
  else
    match lang_given lang with
    | Some l => str "```" ++ l ++ nl ++ chunk ++ nl ++ str "```"
    | None => chunk
    end.

Definition _send_paginated (header txt : pystr) (lang : option pystr) : M text unit :=
  for_ (py_range (length txt) max_chunk)
    (fun i => send (chunk_message header txt lang i)).

(** *** [!save] (lines 37-74) *)

Definition timestamp_of (c : created) : pystr :=
  match c with
  | Datetime iso => iso
  | Opaque s => s
  end.

(** Lines 57-68: the prior content, empty when the file is absent or is
    no JSON; any other exception of the reading goes on. *)
Definition read_existing : M text (list json) :=
  try_except
    (f <- open_read ;;
     existing <- lift (json_load f) ;;
     ret (as_list existing))
    (fun e =>
       match e with
       | FileNotFoundError => Some (ret [])
       | JSONDecodeError => Some (ret [])
       | _ => None
       end).

Definition save_command (m : message) : M text unit :=
  let content_str := strip (skipn (length cmd_save_sp) (content m)) in
  match content_str with
  | [] => send usage_hint ;; return_
  | _ :: _ =>
      let timestamp := timestamp_of (created_at m) in
      let saved_entry := saved_entry_of (author m) timestamp content_str in
      data <- read_existing ;;
      let (written, failure) := json_dump (JList (data ++ [saved_entry])) in
      open_write written failure ;;
      send saved_reply
  end.

(** *** [!load] (lines 76-161) *)

(** Lines 78-85: the requested zone, if any. Line 83 catches
    [ZoneInfoNotFoundError] and nothing else. *)
Definition requested_zone (tz_arg : pystr) : M text (option tzinfo) :=
  match tz_arg with
  | [] => ret None
  | _ :: _ =>
      try_except
        (tz <- lift (ZoneInfo tz_arg) ;; ret (Some tz))
        (fun e =>
           match e with
           | ZoneInfoNotFoundError =>
               Some (send (unknown_timezone_reply tz_arg) ;; return_)
           | _ => None
           end)
  end.

Definition load_command (m : message) : M text unit :=
  let tz_arg := strip (skipn (length cmd_load) (content m)) in
  tz_obj <- requested_zone tz_arg ;;
  try_except
    (f <- open_read ;;
     data <- lift (json_load f) ;;
     let data := as_list data in
     g <- lift (group_entries data) ;;
     parts <- lift (render_parts tz_obj g) ;;
     _send_paginated saved_header (friendly_text parts) None)
    (fun e =>
       match e with
       | FileNotFoundError => Some (send no_data_reply)
       | JSONDecodeError => Some (send corrupted_reply)
       | _ => None
       end).

(** *** [on_message] *)

Definition on_message (m : message) : M text unit :=
  (if startswith (content m) cmd_save then save_command m else ret tt) ;;
  (if startswith (content m) cmd_load then load_command m else ret tt).

(** One delivery of [m] to the handler, the file being [file]: how the
    handler ended, the file afterwards and the messages sent. *)
Definition handle (m : message) (file : option text)
  : outcome unit * world text :=
  on_message m (World file []).

Definition replies (r : outcome unit * world text) : list pystr := sent (snd r).
Definition file_after (r : outcome unit * world text) : option text :=
  data_file (snd r).


(** The messages that [_send_paginated] sends, in order. *)
Definition paginate (header txt : pystr) (lang : option pystr) : list pystr :=
  List.map (chunk_message header txt lang) (py_range (length txt) max_chunk).

(** The slices of the text that pagination cuts. *)
Definition slices (txt : pystr) : list pystr :=
  List.map (fun i => slice txt i max_chunk) (py_range (length txt) max_chunk).

(** ** Vocabulary of the properties *)

(** The text that [!save] stores and the argument of [!load]. *)
Definition save_payload (m : message) : pystr :=
  strip (skipn (length cmd_save_sp) (content m)).

Definition load_argument (m : message) : pystr :=
  strip (skipn (length cmd_load) (content m)).

(** A [!save] that stores something, and a [!load] whose zone argument is
    absent or resolves. *)
Definition saving (m : message) : Prop :=
  startswith (content m) cmd_save = true /\ save_payload m <> [].

Definition loading (m : message) (tz_obj : option tzinfo) : Prop :=
  startswith (content m) cmd_load = true
  /\ match load_argument m with
     | [] => tz_obj = None
     | arg => exists tz, ZoneInfo arg = inr tz /\ tz_obj = Some tz
     end.

(** The entry that a saving message appends. *)
Definition entry_of (m : message) : json :=
  saved_entry_of (author m) (timestamp_of (created_at m)) (save_payload m).

(** Whether lines 64-68 catch an exception of the reading. *)
Definition read_recovered (e : exn) : bool :=
  match e with
  | FileNotFoundError | JSONDecodeError => true
  | _ => false
  end.

(** What lines 57-68 make of the file: the prior content, or the
    exception that goes on. *)
Definition read_data (file : option text) : result (list json) :=
  match file with
  | None => inr []
  | Some t =>
      match json_load t with
      | inr v => inr (as_list v)
      | inl e => if read_recovered e then inr [] else inl e
      end
  end.

(** The prior content that a [!save] appends to; nothing where the
    reading raises. *)
Definition existing_entries (file : option text) : list json :=
  match read_data file with
  | inr data => data
  | inl _ => []
  end.

(** The file after each message of [ms] has been handled in turn. *)
Definition file_after_all (ms : list message) (file : option text)
  : option text :=
  fold_left (fun f m => file_after (handle m f)) ms file.

(** Each message of [ms], handled in turn from [file], is answered with
    the confirmation of a save. *)
Fixpoint all_saved (ms : list message) (file : option text) : Prop :=
  match ms with
  | [] => True
  | m :: rest =>
      replies (handle m file) = [saved_reply]
      /\ all_saved rest (file_after (handle m file))
  end.

(** The entry that the grouping loop keeps for an element: the element
    itself, or the wrapper of a legacy one. *)
Definition kept_entry (entry : json) : json :=
  if is_author_entry entry then entry else legacy_entry entry.

(** Whether line 120 accepts the type of the timestamp of an entry: it is
    falsy, or it is a [str]. *)
Definition timestamp_ok (ent : json) : bool :=
  negb (truthy (entry_timestamp ent))
  || match entry_timestamp ent with JStr _ => true | _ => false end.

(** Whether the grouping loop accepts an element: it is a legacy one, or
    its author is falsy or hashable. *)
Definition author_ok (entry : json) : bool :=
  negb (is_author_entry entry)
  || negb (truthy (get entry (str "author")))
  || match hashable (get entry (str "author")) with Some _ => true | None => false end.

(** An element on which the handler's own code raises no [TypeError]. *)
Definition well_typed (entry : json) : bool :=
  author_ok entry && timestamp_ok (kept_entry entry).

(** Whether lines 116-131 end without an exception on an entry, for the
    zone [tz_obj]: the timestamp is falsy, or it is a string on which
    the library calls of lines 120-129 raise nothing, or a [ValueError]. *)
Definition converts (tz_obj : option tzinfo) (ent : json) : bool :=
  match entry_timestamp ent with
  | JStr (c :: s) =>
      match converted_timestamp tz_obj (c :: s) with
      | inr _ => true
      | inl e => is_ValueError e
      end
  | ts => negb (truthy ts)
  end.

(** An element that [!load] can show for the zone [tz_obj]. *)
Definition showable (tz_obj : option tzinfo) (entry : json) : bool :=
  author_ok entry && converts tz_obj (kept_entry entry).

(** [[f(x) for x in xs]], stopping at the first exception. *)
Fixpoint mapM {A B} (f : A -> result B) (xs : list A) : result (list B) :=
  match xs with
  | [] => inr []
  | x :: rest =>
      rbind (f x) (fun y => rbind (mapM f rest) (fun ys => inr (y :: ys)))
  end.

(** The two lines of one entry, and the lines of one group. *)
Definition entry_lines (tz_obj : option tzinfo) (ie : nat * json)
  : result (list pystr) :=
  render_entry tz_obj [] ie.

Definition group_lines (tz_obj : option tzinfo) (item : pykey * list json)
  : result (list pystr) :=
  render_group tz_obj [] item.

(** The number of entries in all groups. *)
Definition total_entries (g : grouped) : nat :=
  list_sum (List.map (fun item => length (snd item)) g).

(** [parts] is made of one block per group, in order: the author line
    with the size of the group, two lines per entry, an empty line. *)
Definition rendering_of (g : grouped) (parts : list pystr) : Prop :=
  exists blocks,
    parts = concat blocks
    /\ Forall2
         (fun item block =>
            exists lines,
              block = author_line (fst item) (length (snd item)) :: lines ++ [[]]
              /\ length lines = 2 * length (snd item))
         g blocks.

(** [parts] shows, in the block of the group [k] of [n] entries, the
    lines [l1] and [l2] as those of its entry number [idx]. *)
Definition shown_in_group (parts : list pystr) (k : pykey) (n idx : nat)
    (l1 l2 : pystr) : Prop :=
  exists pre before after post,
    parts = pre ++ [author_line k n] ++ before ++ [l1; l2] ++ after ++ [[]] ++ post
    /\ 1 <= idx <= n
    /\ length before = 2 * (idx - 1)
    /\ length after = 2 * (n - idx).


(** Lines 116-131 end without an exception on every entry of every
    group. *)
Definition groups_ok (tz_obj : option tzinfo) (g : grouped) : Prop :=
  Forall (fun item => Forall (fun e => converts tz_obj e = true) (snd item)) g.

(** The entry [ent] sits in the group of key [k]. *)
Definition in_group (g : grouped) (k : pykey) (ent : json) : Prop :=
  exists entries, In (k, entries) g /\ In ent entries.



(** The text that the messages of a reply carry behind the header: the
    first message without its header line, then the other messages. *)
Definition carried (header : pystr) (msgs : list pystr) : option pystr :=
  match msgs with
  | [] => Some []
  | first :: rest =>
      if startswith first (header ++ nl)
      then Some (skipn (length (header ++ nl)) first ++ concat rest)
      else None
  end.

(** How [!load], asked for the zone [tz_obj], treats the timestamp of the
    stored element [entry], showing [shown] for it. The loop body appends
    the two lines of the entry it keeps for the element to the parts built
    so far; a rendering that completes without the entry completes with
    it and shows these lines at its place; and the reply to a file that
    holds the element among elements that can be shown carries them. *)
Definition shows_timestamp (tz_obj : option tzinfo) (entry : json)
    (shown : pystr) : Prop :=
  let ent := kept_entry entry in
  (forall parts idx,
     render_entry tz_obj parts (idx, ent)
     = inr (parts ++ [payload_line idx (payload_of ent);
                      str "       Timestamp: " ++ shown]))
  /\ (forall g1 k es1 es2 g2 parts0,
        render_parts tz_obj (g1 ++ (k, es1 ++ es2) :: g2) = inr parts0 ->
        exists parts,
          render_parts tz_obj (g1 ++ (k, es1 ++ ent :: es2) :: g2) = inr parts
          /\ shown_in_group parts k (length (es1 ++ ent :: es2))
               (S (length es1))
               (payload_line (S (length es1)) (payload_of ent))
               (str "       Timestamp: " ++ shown))
  /\ (forall m t v,
        loading m tz_obj ->
        json_load t = inr v ->
        In entry (as_list v) ->
        Forall (fun x => showable tz_obj x = true) (as_list v) ->
        exists parts k n idx,
          fst (handle m (Some t)) = Done tt
          /\ carried (str "Saved messages:") (replies (handle m (Some t)))
             = Some (join nl parts)
          /\ shown_in_group parts k n idx
               (payload_line idx (payload_of ent))
               (str "       Timestamp: " ++ shown)).

(** ** Vocabulary of the further properties *)

(** The file holds nothing, or only elements on which the handler's own
    code raises no [TypeError]. *)
Definition store_ok (file : option text) : Prop :=
  Forall (fun e => well_typed e = true) (existing_entries file).

(** The key under which the loop files an entry it keeps (line 99, and
    ['unknown'] for a wrapper), if that key can be hashed. *)
Definition key_of (ent : json) : option pykey :=
  let a := get ent (str "author") in
  hashable (if truthy a then a else JStr unknown).

(** [l1] is [l2] with some elements left out, the others in their order. *)
Inductive subseq {A : Type} : list A -> list A -> Prop :=
| subseq_nil : subseq [] []
| subseq_skip x l1 l2 : subseq l1 l2 -> subseq l1 (x :: l2)
| subseq_take x l1 l2 : subseq l1 l2 -> subseq (x :: l1) (x :: l2).

(** No key of the dict is equal to a later one. *)
Fixpoint keys_distinct (g : grouped) : Prop :=
  match g with
  | [] => True
  | (k, _) :: rest =>
      Forall (fun item => key_eqb k (fst item) = false) rest
      /\ keys_distinct rest
  end.

(** Two lines of two renderings: the same line, or two Timestamp lines. *)
Definition same_but_timestamp (a b : pystr) : Prop :=
  a = b
  \/ (startswith a (str "       Timestamp: ") = true
      /\ startswith b (str "       Timestamp: ") = true).

(** Every entry of a group was filed under a key equal to the group's. *)
Definition group_keyed (item : pykey * list json) : Prop :=
  snd item <> []
  /\ Forall (fun ent => exists k, key_of ent = Some k
                                  /\ key_eqb (fst item) k = true)
       (snd item).

(** A text without a newline. *)
Definition one_line (s : pystr) : bool :=
  forallb (fun c => negb (N.eqb c 10)) s.

(** The reading of an escaped text, as a JSON decoder does it: the
    inverse of [escape_char], by which quoting is shown to lose nothing. *)
Definition unhex (c : N) : N :=
  (if c <? 58 then c - 48 else c - 87)%N.

Definition unescaped (x : N) : N :=
  (if x =? 110 then 10
   else if x =? 114 then 13
   else if x =? 116 then 9
   else if x =? 98 then 8
   else if x =? 102 then 12
   else x)%N.

Fixpoint unescape (s : pystr) : option pystr :=
  match s with
  | [] => Some []
  | c :: rest =>
      if N.eqb c 92 then
        match rest with
        | [] => None
        | x :: rest1 =>
            if N.eqb x 117 then
              match rest1 with
              | _ :: _ :: a :: b :: rest2 =>
                  option_map (cons (16 * unhex a + unhex b)%N) (unescape rest2)
              | _ => None
              end
            else option_map (cons (unescaped x)) (unescape rest1)
        end
      else option_map (cons c) (unescape rest)
  end.

(** What the Timestamp line of an entry shows when lines 116-131 end
    without an exception: the time that lines 120-129 make of a non-empty
    string, the string itself when they raise ([ValueError], then), and
    [None] for any other timestamp. *)
Definition shown_timestamp (tz_obj : option tzinfo) (ent : json) : pystr :=
  match entry_timestamp ent with
  | JStr (c :: s) =>
      match converted_timestamp tz_obj (c :: s) with
      | inr human_ts => human_ts
      | inl _ => c :: s
      end
  | _ => str "None"
  end.

(** The two lines of the entry number [idx] of a group, and the block of
    a group. *)
Definition entry_block (tz_obj : option tzinfo) (ie : nat * json)
  : list pystr :=
  [str "  " ++ str_of_nat (fst ie) ++ str ") "
   ++ json_dumps (payload_of (snd ie));
   str "       Timestamp: " ++ shown_timestamp tz_obj (snd ie)].

Definition group_block (tz_obj : option tzinfo) (item : pykey * list json)
  : list pystr :=
  (str "Author: " ++ str_of_key (fst item) ++ str " ("
   ++ str_of_nat (length (snd item)) ++ str " message(s))")
  :: flat_map (entry_block tz_obj) (combine (seq 1 (length (snd item))) (snd item))
  ++ [[]].

(** A chunk between code fences of language [l]. *)
Definition fenced (l chunk : pystr) : pystr :=
  str "```" ++ l ++ nl ++ chunk ++ nl ++ str "```".

(** ** The two commands, by what the library calls give *)

(** What a saving message comes to: the exception of the reading, the
    confirmation behind a complete dump of the prior content and the new
    entry, or the exception of the writing. *)
Definition save_outcome (m : message) (file : option text)
  : outcome unit * world text :=
  match read_data file with
  | inl e => (Raised e, World file [])
  | inr data =>
      match json_dump (JList (data ++ [entry_of m])) with
      | (written, None) => (Done tt, World (Some written) [saved_reply])
      | (written, Some e) => (Raised e, World (Some written) [])
      end
  end.

(** Lines 158-161 on an exception raised between lines 88 and 157. *)
Definition load_except (e : exn) (file : option text)
  : outcome unit * world text :=
  match e with
  | FileNotFoundError => (Done tt, World file [no_data_reply])
  | JSONDecodeError => (Done tt, World file [corrupted_reply])
  | _ => (Raised e, World file [])
  end.

(** What lines 88-138 make of a file that exists: the lines to send. *)
Definition load_parts (tz_obj : option tzinfo) (t : text)
  : result (list pystr) :=
  rbind (json_load t) (fun v =>
  rbind (group_entries (as_list v)) (render_parts tz_obj)).

(** What a [!load] with a usable zone comes to. *)
Definition load_outcome (tz_obj : option tzinfo) (file : option text)
  : outcome unit * world text :=
  match file with
  | None => load_except FileNotFoundError file
  | Some t =>
      match load_parts tz_obj t with
      | inl e => load_except e file
      | inr parts =>
          (Done tt, World file (paginate saved_header (friendly_text parts) None))
      end
  end.

End Handler.

(** ** Sample inputs *)

Definition sample_handle : message -> option sample_text ->
    outcome unit * world sample_text :=
  handle (rt := sample_runtime).

Definition at_noon : created := Datetime (str "2024-05-01T12:00:00+00:00").

Definition ann_saves : message :=
  Message (str "!save   buy milk ") (str "ann") at_noon.
Definition bob_saves : message :=
  Message (str "!save call `home`") (str "bob") (Opaque (str "None")).
Definition ann_saves_again : message :=
  Message (str "!save water the plants") (str "ann") at_noon.
Definition blank_save : message := Message (str "!save    ") (str "ann") at_noon.
Definition plain_load : message := Message (str "!load ") (str "bob") at_noon.
Definition berlin_load : message :=
  Message (str "!load Europe/Berlin") (str "bob") at_noon.
Definition mars_load : message :=
  Message (str "!load Mars/Olympus") (str "bob") at_noon.

Definition three_saves : list message := [ann_saves; bob_saves; ann_saves_again].

(** A file from before entries had authors: a bare string, a number and
    one entry of today's shape. *)
Definition legacy_file : sample_text :=
  Encoded (JList [JStr (str "old note");
                  JInt 7;
                  saved_entry_of (str "ann") (str "yesterday") (str "hi")]).

Definition garbled_file : sample_text := Garbled (str "[{").

Definition long_text : pystr := repeat 120%N 5000.

(** A message that is no command, a second sender of a bare [!load], and
    a file with an element whose author is a list. *)
Definition greeting : message :=
  Message (str "hello, !save this") (str "ann") at_noon.

Definition zoe_loads : message :=
  Message (str "!load ") (str "zoe") (Opaque []).

Definition unshowable_file : sample_text :=
  Encoded (JList [JStr (str "old note");
                  JDict [(str "author", JList [JInt 1])]]).

(** The elements of [legacy_file] and the dict that grouping makes of
    them. *)
Definition legacy_data : list json :=
  [JStr (str "old note");
   JInt 7;
   saved_entry_of (str "ann") (str "yesterday") (str "hi")].

Definition legacy_groups : list (pykey * list json) :=
  [(KStr (str "unknown"),
    [legacy_entry (JStr (str "old note")); legacy_entry (JInt 7)]);
   (KStr (str "ann"),
    [saved_entry_of (str "ann") (str "yesterday") (str "hi")])].

(** An entry whose timestamp carries no offset. *)
Definition naive_entry : json :=
  saved_entry_of (str "ann") (str "2024-05-01T12:00:00") (str "hi").


(** A file that is no UTF-8 text, one of opening brackets only, two
    files with a timestamp at the ends of the calendar, a [!load] whose argument is no normalized
    relative path, and a [!save] of a lone surrogate. *)
Definition binary_file : sample_text := Binary [255; 254; 0]%N.

Definition deep_file : sample_text := Garbled (repeat 91%N (200 * 1000)).


Definition year_9999_file : sample_text :=
  Encoded (JList [saved_entry_of (str "ann")
                    (str "9999-12-31T23:59:59") (str "hi")]).

Definition dotdot_load : message :=
  Message (str "!load ../x") (str "bob") at_noon.

Definition surrogate_save : message :=
  Message (str "!save " ++ [55296%N]) (str "ann") at_noon.

(** Two stored objects that the claims on timestamps single out: one
    whose timestamp is the empty string, one without author. *)
Definition empty_timestamp_entry : json :=
  saved_entry_of (str "ann") [] (str "hi").

Definition authorless_entry : json :=
  JDict [(str "timestamp", JStr (str "yesterday"));
         (str "payload", JStr (str "hi"))].

(** * Properties *)

Section Properties.

Context {rt : Runtime}.

(** What [json.dump] has written without an exception, [json.load] reads
    back. Only the properties of a [!save] followed by a reading rest on
    it. *)
Hypothesis load_dump :
  forall v t, json_dump v = (t, None) -> json_load t = inr v.

(** ** Strings *)

Lemma load_is_not_save (s : pystr) :
  startswith s cmd_load = true -> startswith s cmd_save = false.
Proof.
  change cmd_load with [33; 108; 111; 97; 100]%N.
  change cmd_save with [33; 115; 97; 118; 101]%N.
  destruct s as [|c0 [|c1 s]]; cbn [startswith]; try discriminate.
  - rewrite andb_false_r. discriminate.
  - intros H.
    apply andb_prop in H as [_ H].
    apply andb_prop in H as [H _].
    apply N.eqb_eq in H. subst c1.
    change (115 =? 108)%N with false.
    cbn [andb]. apply andb_false_r.
Qed.

Lemma save_is_not_load (s : pystr) :
  startswith s cmd_save = true -> startswith s cmd_load = false.
Proof.
  intros H. destruct (startswith s cmd_load) eqn:E; [|reflexivity].
  apply load_is_not_save in E. congruence.
Qed.

Lemma lstrip_spaces (s : pystr) :
  forallb isspace s = true -> lstrip s = [].
Proof.
  induction s as [|c s IH]; simpl; [reflexivity|].
  intros H. apply andb_prop in H as [Hc Hs].
  rewrite Hc. auto.
Qed.

Lemma lstrip_nil_spaces (s : pystr) :
  lstrip s = [] -> forallb isspace s = true.
Proof.
  induction s as [|c s IH]; simpl; [reflexivity|].
  destruct (isspace c); [auto | discriminate].
Qed.

(** A text strips to nothing exactly when it is empty or all whitespace. *)
Lemma strip_nil_iff (s : pystr) :
  strip s = [] <-> forallb isspace s = true.
Proof.
  unfold strip, rstrip. split.
  - intros H. apply lstrip_nil_spaces.
    destruct (lstrip s) as [|c l] eqn:E; [reflexivity|].
    exfalso.
    assert (Hc : isspace c = false).
    { destruct s as [|c' s']; simpl in E; [discriminate|].
      clear H. revert c' E. induction s' as [|d s' IH]; intros c' E.
      - simpl in E. destruct (isspace c') eqn:Ec; [discriminate|].
        congruence.
      - simpl in E. destruct (isspace c') eqn:Ec.
        + apply (IH d). exact E.
        + congruence. }
    apply (f_equal (@rev N)) in H. rewrite rev_involutive in H. simpl in H.
    apply lstrip_nil_spaces in H.
    rewrite forallb_forall in H.
    assert (Hin : In c (rev (c :: l))) by (apply in_rev; rewrite rev_involutive; left; reflexivity).
    apply H in Hin. congruence.
  - intros H. rewrite (lstrip_spaces s H). reflexivity.
Qed.

Lemma skipn_spaces (n : nat) (s : pystr) :
  forallb isspace s = true -> forallb isspace (skipn n s) = true.
Proof.
  revert s. induction n as [|n IH]; intros s H; [exact H|].
  destruct s as [|c s]; [reflexivity|].
  simpl in *. apply andb_prop in H as [_ H]. auto.
Qed.

(** ** Running the monad *)

Lemma for_send {A} (f : A -> pystr) (xs : list A) (w : world text) :
  for_ xs (fun x => send (f x)) w
  = (Done tt, World (data_file w) (sent w ++ List.map f xs)).
Proof.
  revert w. induction xs as [|x xs IH]; intros [file out]; simpl.
  - unfold ret. rewrite app_nil_r. reflexivity.
  - unfold bind, send at 1. simpl. rewrite IH. simpl.
    rewrite <- app_assoc. reflexivity.
Qed.

Lemma _send_paginated_run (header txt : pystr) (lang : option pystr)
    (w : world text) :
  _send_paginated header txt lang w
  = (Done tt, World (data_file w) (sent w ++ paginate header txt lang)).
Proof. unfold _send_paginated. apply for_send. Qed.

(** ** Pagination *)

Lemma py_range_cons (len step : nat) :
  0 < len -> 0 < step ->
  py_range len step
  = 0 :: List.map (fun k => S k * step) (seq 0 ((len + step - 1) / step - 1)).
Proof.
  intros Hl Hs. unfold py_range.
  assert (1 <= (len + step - 1) / step).
  { apply Nat.div_le_lower_bound; lia. }
  replace ((len + step - 1) / step) with (S ((len + step - 1) / step - 1)) at 1 by lia.
  simpl. rewrite <- seq_shift, map_map. reflexivity.
Qed.

Lemma concat_slices_gen (c : nat) (n : nat) (txt : pystr) :
  length txt <= n * c ->
  concat (List.map (fun k => firstn c (skipn (k * c) txt)) (seq 0 n)) = txt.
Proof.
  revert txt. induction n as [|n IH]; intros txt H.
  - simpl in *. destruct txt; [reflexivity | simpl in H; lia].
  - simpl. rewrite <- seq_shift, map_map.
    rewrite <- (firstn_skipn c txt) at 2. f_equal.
    rewrite <- (IH (skipn c txt)) at 1.
    + f_equal. apply map_ext. intros k.
      rewrite skipn_skipn.
      replace (S k * c) with (k * c + c) by lia. reflexivity.
    + rewrite length_skipn. simpl in H. lia.
Qed.

Lemma range_count_ceil (len step : nat) :
  0 < step ->
  let n := (len + step - 1) / step in
  len <= n * step /\ (0 < len -> (n - 1) * step < len).
Proof.
  intros Hs n.
  assert (E := Nat.div_mod_eq (len + step - 1) step).
  assert (B := Nat.mod_upper_bound (len + step - 1) step ltac:(lia)).
  fold n in E. split; [nia|].
  intros Hl.
  assert (1 <= n) by (apply Nat.div_le_lower_bound; lia).
  nia.
Qed.

Lemma concat_slices (txt : pystr) : concat (slices txt) = txt.
Proof.
  unfold slices, py_range. rewrite map_map.
  apply (concat_slices_gen max_chunk).
  apply (range_count_ceil (length txt)). unfold max_chunk. lia.
Qed.

Lemma paginate_nil (header : pystr) (lang : option pystr) :
  paginate header [] lang = [].
Proof. reflexivity. Qed.

Lemma paginate_plain (header txt : pystr) :
  0 < length txt ->
  paginate header txt None
  = (header ++ nl ++ hd [] (slices txt)) :: tl (slices txt).
Proof.
  intros H. unfold paginate, slices.
  rewrite (py_range_cons H) by (unfold max_chunk; lia).
  simpl. f_equal. rewrite !map_map. apply map_ext_in.
  intros k _. unfold chunk_message. simpl. reflexivity.
Qed.

(** ** Pagination (C4) *)

(** C4. A text of length [L > 0] is sent as [ceil(L / 1900)] messages, in
    order: the messages are the slices [txt[k*1900 : k*1900 + 1900]], each
    of at most 1900 characters, the first one behind the header and a
    newline and the others bare; the slices concatenate to the text; a
    text of 5000 characters is sent as 3 messages. *)
Theorem pagination_chunks (header txt : pystr) (w : world text) :
  0 < length txt ->
  let msgs := paginate header txt None in
  let n := length msgs in
  _send_paginated header txt None w
  = (Done tt, World (data_file w) (sent w ++ msgs))
  /\ length txt <= n * 1900 /\ (n - 1) * 1900 < length txt
  /\ length (slices txt) = n
  /\ msgs = (header ++ nl ++ hd [] (slices txt)) :: tl (slices txt)
  /\ (forall k, k < n -> nth k (slices txt) [] = firstn 1900 (skipn (k * 1900) txt))
  /\ Forall (fun s => length s <= 1900) (slices txt)
  /\ concat (slices txt) = txt
  /\ (length txt = 5000 -> n = 3).
Proof.
  intros HL msgs n.
  assert (Hn : n = (length txt + max_chunk - 1) / max_chunk).
  { unfold n, msgs, paginate, py_range. rewrite !length_map, length_seq.
    reflexivity. }
  assert (Hs : length (slices txt) = n).
  { unfold slices, py_range. rewrite !length_map, length_seq. symmetry. exact Hn. }
  destruct (@range_count_ceil (length txt) max_chunk) as [Hup Hlow];
    [unfold max_chunk; lia|].
  rewrite <- Hn in Hup, Hlow. change max_chunk with 1900 in Hup, Hlow.
  split; [apply _send_paginated_run|].
  split; [exact Hup|]. split; [auto|]. split; [exact Hs|].
  split; [apply paginate_plain; exact HL|].
  split.
  { intros k Hk. unfold slices, py_range. rewrite map_map.
    rewrite <- Hn.
    rewrite (nth_indep _ [] (slice txt (0 * max_chunk) max_chunk))
      by (rewrite length_map, length_seq; exact Hk).
    rewrite (map_nth (fun x => slice txt (x * max_chunk) max_chunk)).
    rewrite seq_nth by exact Hk. reflexivity. }
  split.
  { unfold slices. apply Forall_forall. intros s Hin.
    apply in_map_iff in Hin as (i & <- & _). unfold slice.
    rewrite length_firstn. change max_chunk with 1900. lia. }
  split; [apply concat_slices|].
  intros H5. rewrite Hn, H5. reflexivity.
Qed.

(** ** Running [!save] *)

Lemma handle_save_empty (m : message) (file : option text) :
  startswith (content m) cmd_save = true ->
  save_payload m = [] ->
  handle m file = (Returned, World file [usage_hint]).
Proof.
  intros Hs Hp. unfold handle, on_message, save_command.
  fold (save_payload m). rewrite Hs, Hp. reflexivity.
Qed.

Lemma read_existing_run (w : world text) :
  read_existing w
  = (match read_data (data_file w) with
     | inr data => Done data
     | inl e => Raised e
     end, w).
Proof.
  unfold read_existing, try_except, bind, open_read, read_data.
  destruct (data_file w) as [t|]; [|reflexivity].
  destruct (json_load t) as [e|v]; simpl.
  - destruct e; reflexivity.
  - reflexivity.
Qed.

Lemma handle_save_run (m : message) (file : option text) :
  saving m -> handle m file = save_outcome m file.
Proof.
  intros [Hs Hp]. unfold handle, on_message, save_outcome.
  rewrite Hs, (save_is_not_load _ Hs).
  unfold save_command, entry_of. fold (save_payload m).
  destruct (save_payload m) as [|c p]; [congruence|].
  unfold bind at 1 2. rewrite read_existing_run. cbn [data_file].
  destruct (read_data file) as [e|data]; [reflexivity|].
  destruct (json_dump _) as [written [e|]]; reflexivity.
Qed.

(** A save that is answered with the confirmation has read the file and
    written the dump of the prior content and the new entry. *)
Lemma handle_save_confirmed (m : message) (file : option text) :
  saving m ->
  replies (handle m file) = [saved_reply] ->
  exists written,
    json_dump (JList (existing_entries file ++ [entry_of m])) = (written, None)
    /\ handle m file = (Done tt, World (Some written) [saved_reply]).
Proof.
  intros Hm. rewrite (handle_save_run file Hm).
  unfold save_outcome, existing_entries.
  destruct (read_data file) as [e|data]; [discriminate|].
  destruct (json_dump _) as [written [e|]]; [discriminate|].
  intros _. exists written. split; reflexivity.
Qed.

(** C5. A [!save] whose remainder after the prefix is empty or only
    whitespace is answered with the usage hint, and the file is left as it
    was: absent if it was absent, with the same text otherwise. The
    remainder is taken as the source takes it, after [len('!save ')]
    characters; a remainder after [!save] that is all whitespace is one. *)
Theorem save_blank_is_refused (m : message) (file : option text) :
  startswith (content m) cmd_save = true ->
  forallb isspace (skipn (length cmd_save_sp) (content m)) = true
  \/ forallb isspace (skipn (length cmd_save) (content m)) = true ->
  handle m file = (Returned, World file [usage_hint])
  /\ replies (handle m file) = [usage_hint]
  /\ file_after (handle m file) = file.
Proof.
  intros Hs Hblank.
  assert (E : handle m file = (Returned, World file [usage_hint])).
  { apply handle_save_empty; [exact Hs|].
    apply strip_nil_iff. destruct Hblank as [H|H]; [exact H|].
    change (length cmd_save_sp) with (1 + length cmd_save).
    rewrite <- skipn_skipn. apply skipn_spaces. exact H. }
  rewrite E. repeat split.
Qed.

(** ** Running [!load] *)

Lemma for_each_raises {A S} (body : S -> A -> result S) (P : exn -> Prop) :
  (forall acc x e, body acc x = inl e -> P e) ->
  forall xs acc e, for_each body xs acc = inl e -> P e.
Proof.
  intros Hb xs. induction xs as [|x xs IH]; intros acc e; simpl.
  - discriminate.
  - destruct (body acc x) as [e'|acc'] eqn:E; simpl.
    + intros [= <-]. eauto.
    + apply IH.
Qed.

(** The grouping loop raises nothing but the [TypeError] of an author
    that cannot be hashed. *)
Lemma group_entries_raises (data : list json) (e : exn) :
  group_entries data = inl e -> e = TypeError.
Proof.
  apply (@for_each_raises _ _ _ (fun e => e = TypeError)).
  intros acc x e'. unfold group_entry.
  destruct (is_author_entry x); [|discriminate].
  destruct (hashable _); [discriminate|]. congruence.
Qed.

Lemma requested_zone_run (m : message) (tz_obj : option tzinfo)
    (w : world text) :
  loading m tz_obj ->
  requested_zone (load_argument m) w = (Done tz_obj, w).
Proof.
  intros [_ H]. unfold requested_zone.
  destruct (load_argument m) as [|c arg].
  - subst. reflexivity.
  - destruct H as (tz & Hz & ->).
    unfold try_except, bind. rewrite Hz. reflexivity.
Qed.

Lemma load_except_file (e : exn) (file : option text) :
  data_file (snd (load_except e file)) = file.
Proof. destruct e; reflexivity. Qed.

(** What a [!load] with a usable zone does, by the state of the file. *)
Lemma handle_load_run (m : message) (tz_obj : option tzinfo)
    (file : option text) :
  loading m tz_obj -> handle m file = load_outcome tz_obj file.
Proof.
  intros Hl. assert (Hl' := Hl). destruct Hl' as [Hs _].
  unfold handle, on_message.
  rewrite Hs, (load_is_not_save _ Hs).
  unfold load_command. fold (load_argument m).
  unfold bind at 1. unfold ret at 1.
  unfold bind at 1. rewrite (requested_zone_run _ Hl).
  unfold load_outcome, load_parts, try_except, bind, open_read. simpl.
  destruct file as [t|]; [|reflexivity].
  destruct (json_load t) as [e|v]; simpl.
  { destruct e; reflexivity. }
  destruct (group_entries (as_list v)) as [e|g] eqn:Eg; simpl.
  { destruct e; reflexivity. }
  destruct (render_parts tz_obj g) as [e|parts] eqn:Er; simpl.
  { destruct e; reflexivity. }
  rewrite _send_paginated_run. reflexivity.
Qed.

(** What a [!load] does when [ZoneInfo] raises on its argument. *)
Lemma handle_load_zone_raises (m : message) (file : option text) (e : exn) :
  startswith (content m) cmd_load = true ->
  load_argument m <> [] ->
  ZoneInfo (load_argument m) = inl e ->
  handle m file
  = match e with
    | ZoneInfoNotFoundError =>
        (Returned, World file [unknown_timezone_reply (load_argument m)])
    | _ => (Raised e, World file [])
    end.
Proof.
  intros Hs Ha Hz. unfold handle, on_message.
  rewrite Hs, (load_is_not_save _ Hs).
  unfold load_command. fold (load_argument m).
  unfold bind at 1. unfold ret at 1.
  unfold bind at 1. unfold requested_zone.
  destruct (load_argument m) as [|c arg]; [congruence|].
  unfold try_except, bind. rewrite Hz. destruct e; reflexivity.
Qed.

Lemma load_cases (m : message) :
  startswith (content m) cmd_load = true ->
  (exists tz_obj, loading m tz_obj)
  \/ (load_argument m <> [] /\ exists e, ZoneInfo (load_argument m) = inl e).
Proof.
  intros Hs. unfold loading.
  destruct (load_argument m) as [|c arg] eqn:Ea.
  - left. exists None. auto.
  - destruct (ZoneInfo (c :: arg)) as [e|tz] eqn:Ez.
    + right. split; [discriminate | eauto].
    + left. exists (Some tz). split; [exact Hs | eauto].
Qed.

Lemma load_outcome_file (tz_obj : option tzinfo) (file : option text) :
  file_after (load_outcome tz_obj file) = file.
Proof.
  unfold load_outcome, file_after. destruct file as [t|]; [|reflexivity].
  destruct (load_parts tz_obj t); [apply load_except_file | reflexivity].
Qed.

Lemma handle_load_file (m : message) (file : option text) :
  startswith (content m) cmd_load = true ->
  file_after (handle m file) = file.
Proof.
  intros Hs. destruct (load_cases m Hs) as [[tz Hl] | [Ha [e Hz]]].
  - rewrite (handle_load_run file Hl). apply load_outcome_file.
  - rewrite (handle_load_zone_raises m file Hs Ha Hz). destruct e; reflexivity.
Qed.

(** ** The commands (C6, C7, C9, C10) *)

(** C6. A [!load] whose trimmed argument is not empty and on which
    [ZoneInfo] raises [ZoneInfoNotFoundError] is answered with the
    unknown-timezone message, which quotes the argument, and returns
    there: the file is not touched and the answer is the same whatever
    the file holds, so that no stored entry is shown. When [ZoneInfo]
    raises another exception on the argument, as it does with
    [ValueError] for a key that is no normalized relative path, line 83
    does not catch it: the handler ends with that exception and sends
    nothing. *)
Theorem unknown_zone_is_refused (m : message) (file : option text) (e : exn) :
  startswith (content m) cmd_load = true ->
  load_argument m <> [] ->
  ZoneInfo (load_argument m) = inl e ->
  (e = ZoneInfoNotFoundError ->
   handle m file
   = (Returned,
      World file
        [str "Unknown timezone: `" ++ load_argument m
         ++ str "`. Use an IANA timezone name like `Europe/Berlin`."])
   /\ forall file', replies (handle m file') = replies (handle m file))
  /\ (e <> ZoneInfoNotFoundError ->
      handle m file = (Raised e, World file [])).
Proof.
  intros Hs Ha Hz. split.
  - intros ->. split.
    + apply (handle_load_zone_raises m file Hs Ha Hz).
    + intros file'.
      rewrite !(handle_load_zone_raises m _ Hs Ha Hz). reflexivity.
  - intros He. rewrite (handle_load_zone_raises m file Hs Ha Hz).
    destruct e; congruence.
Qed.

Lemma read_data_recovered (file : option text) :
  file = None
  \/ (exists t, file = Some t /\ json_load t = inl JSONDecodeError) ->
  read_data file = inr [].
Proof.
  intros [-> | (t & -> & Ht)]; [reflexivity|].
  unfold read_data. rewrite Ht. reflexivity.
Qed.

Lemma read_data_raises (t : text) (e : exn) :
  json_load t = inl e -> e <> JSONDecodeError -> e <> FileNotFoundError ->
  read_data (Some t) = inl e.
Proof.
  intros Ht H1 H2. unfold read_data. rewrite Ht.
  destruct e; congruence || reflexivity.
Qed.

(** C7. On a file that is absent or is no JSON ([json.load] raises
    [JSONDecodeError]), a [!save] with a payload takes the prior content
    as empty and writes the new entry alone, confirming when the writing
    completes, while a [!load] answers with one message and nothing else:
    the corruption message when the file is no JSON, the no-data message
    when it is absent; the file is then as it was. On a file whose
    reading raises another exception ([UnicodeDecodeError] for bytes that
    are no UTF-8, [RecursionError] for a nesting too deep), no clause
    catches it: both commands end with that exception, send nothing and
    leave the file as it was. *)
Theorem read_recovery_is_asymmetric (file : option text) :
  (file = None \/ (exists t, file = Some t /\ json_load t = inl JSONDecodeError) ->
   (forall m, saving m ->
      handle m file
      = match json_dump (JList [entry_of m]) with
        | (written, None) => (Done tt, World (Some written) [saved_reply])
        | (written, Some e) => (Raised e, World (Some written) [])
        end)
   /\ (forall m tz_obj, loading m tz_obj ->
         handle m file
         = (Done tt,
            World file [match file with
                        | None => no_data_reply
                        | Some _ => corrupted_reply
                        end])))
  /\ (forall t e,
        file = Some t -> json_load t = inl e ->
        e <> JSONDecodeError -> e <> FileNotFoundError ->
        (forall m, saving m -> handle m file = (Raised e, World file []))
        /\ (forall m tz_obj, loading m tz_obj ->
              handle m file = (Raised e, World file []))).
Proof.
  split.
  - intros Hf. split.
    + intros m Hm. rewrite (handle_save_run file Hm). unfold save_outcome.
      rewrite (read_data_recovered Hf). reflexivity.
    + intros m tz_obj Hm. rewrite (handle_load_run file Hm).
      destruct Hf as [-> | (t & -> & Ht)]; [reflexivity|].
      unfold load_outcome, load_parts. rewrite Ht. reflexivity.
  - intros t e -> Ht H1 H2. split.
    + intros m Hm. rewrite (handle_save_run (Some t) Hm). unfold save_outcome.
      rewrite (@read_data_raises t e Ht H1 H2). reflexivity.
    + intros m tz_obj Hm. rewrite (handle_load_run (Some t) Hm).
      unfold load_outcome, load_parts. rewrite Ht. simpl.
      destruct e; congruence || reflexivity.
Qed.

(** C9. No branch of [!load] writes the file: after a [!load] the file is
    what it was before, whatever it held, and a second [!load] ends as the
    first did, with the same messages. *)
Theorem load_leaves_the_file (m : message) (file : option text) :
  startswith (content m) cmd_load = true ->
  file_after (handle m file) = file
  /\ handle m (file_after (handle m file)) = handle m file
  /\ replies (handle m (file_after (handle m file))) = replies (handle m file).
Proof.
  intros Hs. rewrite (handle_load_file m file Hs). repeat split.
Qed.

(** C10. Pagination of the empty text sends nothing, whatever the header;
    so a [!load] of a file that holds the empty array sends no message at
    all, and so does any [!load] whose rendered text is empty. *)
Theorem load_of_nothing_is_silent (m : message) (tz_obj : option tzinfo) :
  loading m tz_obj ->
  (forall header lang w, _send_paginated header [] lang w = (Done tt, w))
  /\ (forall t, json_load t = inr (JList []) ->
        handle m (Some t) = (Done tt, World (Some t) []))
  /\ (forall t v g parts,
        json_load t = inr v ->
        group_entries (as_list v) = inr g ->
        render_parts tz_obj g = inr parts ->
        friendly_text parts = [] ->
        handle m (Some t) = (Done tt, World (Some t) [])).
Proof.
  intros Hl. split; [|split].
  - intros header lang [file out]. rewrite _send_paginated_run. simpl.
    rewrite app_nil_r. reflexivity.
  - intros t Ht. rewrite (handle_load_run (Some t) Hl).
    unfold load_outcome, load_parts. rewrite Ht. reflexivity.
  - intros t v g parts Ht Hg Hr Hf.
    rewrite (handle_load_run (Some t) Hl).
    unfold load_outcome, load_parts. rewrite Ht. simpl. rewrite Hg. simpl.
    rewrite Hr, Hf. reflexivity.
Qed.

(** ** The shape of the rendering *)

Lemma mapM_Forall2 {A B} (f : A -> result B) (xs : list A) (ys : list B) :
  mapM f xs = inr ys <-> Forall2 (fun x y => f x = inr y) xs ys.
Proof.
  revert ys. induction xs as [|x xs IH]; intros ys; simpl.
  - split.
    + intros [= <-]. constructor.
    + intros H. inversion H. reflexivity.
  - split.
    + destruct (f x) as [e|y] eqn:E; simpl; [discriminate|].
      destruct (mapM f xs) as [e|ys'] eqn:E'; simpl; [discriminate|].
      intros [= <-]. constructor; [exact E|]. apply IH. reflexivity.
    + intros H. inversion H as [|x' y l l' Hxy Hrest]; subst.
      rewrite Hxy. simpl. apply IH in Hrest. rewrite Hrest. reflexivity.
Qed.

Lemma mapM_total {A B} (f : A -> result B) (xs : list A) :
  Forall (fun x => exists y, f x = inr y) xs ->
  exists ys, mapM f xs = inr ys.
Proof.
  induction 1 as [|x xs [y Hy] _ [ys IH]]; simpl.
  - eexists. reflexivity.
  - rewrite Hy, IH. simpl. eexists. reflexivity.
Qed.

Lemma for_each_append {A B} (f : A -> result (list B))
    (body : list B -> A -> result (list B)) :
  (forall acc x, body acc x = rbind (f x) (fun l => inr (acc ++ l))) ->
  forall xs acc,
    for_each body xs acc
    = rbind (mapM f xs) (fun ls => inr (acc ++ concat ls)).
Proof.
  intros Hb xs. induction xs as [|x xs IH]; intros acc; simpl.
  - rewrite app_nil_r. reflexivity.
  - rewrite Hb. destruct (f x) as [e|l]; simpl; [reflexivity|].
    rewrite IH. destruct (mapM f xs) as [e|ls]; simpl; [reflexivity|].
    rewrite app_assoc. reflexivity.
Qed.

Lemma entry_lines_eq (tz_obj : option tzinfo) (idx : nat) (ent : json) :
  entry_lines tz_obj (idx, ent)
  = rbind (human_timestamp tz_obj (entry_timestamp ent))
      (fun h => inr [payload_line idx (payload_of ent); timestamp_line h]).
Proof. reflexivity. Qed.

Lemma render_entry_append (tz_obj : option tzinfo) (parts : list pystr)
    (ie : nat * json) :
  render_entry tz_obj parts ie
  = rbind (entry_lines tz_obj ie) (fun l => inr (parts ++ l)).
Proof.
  destruct ie as [idx ent]. unfold entry_lines, render_entry.
  destruct (human_timestamp _ _); reflexivity.
Qed.

Lemma group_lines_eq (tz_obj : option tzinfo) (k : pykey)
    (entries : list json) :
  group_lines tz_obj (k, entries)
  = rbind (mapM (entry_lines tz_obj) (enumerate1 entries))
      (fun ls => inr (author_line k (length entries) :: concat ls ++ [[]])).
Proof.
  unfold group_lines, render_group.
  rewrite (for_each_append (entry_lines tz_obj))
    by apply render_entry_append.
  destruct (mapM _ _); reflexivity.
Qed.

Lemma render_group_append (tz_obj : option tzinfo) (parts : list pystr)
    (item : pykey * list json) :
  render_group tz_obj parts item
  = rbind (group_lines tz_obj item) (fun l => inr (parts ++ l)).
Proof.
  destruct item as [k entries]. rewrite group_lines_eq. unfold render_group.
  rewrite (for_each_append (entry_lines tz_obj))
    by apply render_entry_append.
  destruct (mapM _ _) as [e|ls]; simpl; [reflexivity|].
  rewrite <- !app_assoc. reflexivity.
Qed.

Lemma render_parts_eq (tz_obj : option tzinfo) (g : grouped) :
  render_parts tz_obj g
  = rbind (mapM (group_lines tz_obj) g) (fun ls => inr (concat ls)).
Proof.
  unfold render_parts.
  rewrite (for_each_append (group_lines tz_obj))
    by apply render_group_append.
  reflexivity.
Qed.

Lemma entry_lines_length (tz_obj : option tzinfo) (ie : nat * json)
    (l : list pystr) :
  entry_lines tz_obj ie = inr l -> length l = 2.
Proof.
  destruct ie as [idx ent]. rewrite entry_lines_eq.
  destruct (human_timestamp _ _); simpl; [discriminate|].
  intros [= <-]. reflexivity.
Qed.

Lemma concat_pairs_length {A B} (R : A -> list B -> Prop) (xs : list A)
    (ls : list (list B)) :
  (forall x l, R x l -> length l = 2) ->
  Forall2 R xs ls -> length (concat ls) = 2 * length xs.
Proof.
  intros HR. induction 1 as [|x l xs ls Hxl _ IH]; simpl; [reflexivity|].
  rewrite length_app, IH, (HR _ _ Hxl). lia.
Qed.

Lemma enumerate1_length {A} (xs : list A) :
  length (enumerate1 xs) = length xs.
Proof.
  unfold enumerate1. rewrite length_combine, length_seq. lia.
Qed.

(** A rendering that succeeds has one block per group. *)
Lemma render_parts_shape (tz_obj : option tzinfo) (g : grouped)
    (parts : list pystr) :
  render_parts tz_obj g = inr parts -> rendering_of g parts.
Proof.
  rewrite render_parts_eq.
  destruct (mapM (group_lines tz_obj) g) as [e|blocks] eqn:E; simpl;
    [discriminate|].
  intros [= <-]. exists blocks. split; [reflexivity|].
  apply mapM_Forall2 in E.
  induction E as [|[k entries] block g blocks H _ IH]; constructor; [|exact IH].
  rewrite group_lines_eq in H.
  destruct (mapM (entry_lines tz_obj) (enumerate1 entries)) as [e|ls] eqn:El;
    simpl in H; [discriminate|].
  injection H as <-. exists (concat ls). split; [reflexivity|].
  apply mapM_Forall2 in El. simpl.
  rewrite <- (enumerate1_length entries).
  apply (concat_pairs_length (R := fun x l => entry_lines tz_obj x = inr l));
    [|exact El].
  intros x l. apply entry_lines_length.
Qed.

Lemma combine_seq_app {A} (xs : list A) (x : A) (ys : list A) (s : nat) :
  combine (seq s (length (xs ++ x :: ys))) (xs ++ x :: ys)
  = combine (seq s (length xs)) xs
    ++ (s + length xs, x) :: combine (seq (S (s + length xs)) (length ys)) ys.
Proof.
  revert s. induction xs as [|a xs IH]; intros s; simpl.
  - rewrite Nat.add_0_r. reflexivity.
  - rewrite IH. rewrite <- !plus_n_Sm. reflexivity.
Qed.

(** Lines 116-131 end without an exception exactly on the entries that
    convert, and then show [shown_timestamp]. *)
Lemma human_timestamp_shown (tz_obj : option tzinfo) (ent : json) :
  converts tz_obj ent = true ->
  exists h,
    human_timestamp tz_obj (entry_timestamp ent) = inr h
    /\ format_human_ts h = shown_timestamp tz_obj ent.
Proof.
  unfold converts, human_timestamp, shown_timestamp.
  destruct (entry_timestamp ent) as [ |b|z|f|s|items|kvs]; simpl.
  - intros _. eexists. split; reflexivity.
  - destruct b; [discriminate|]. intros _. eexists. split; reflexivity.
  - destruct (Z.eqb z 0); [|discriminate]. intros _. eexists.
    split; reflexivity.
  - destruct f; try discriminate. intros _. eexists. split; reflexivity.
  - destruct s as [|c s]; [intros _; eexists; split; reflexivity|].
    destruct (converted_timestamp tz_obj (c :: s)) as [e|h].
    + intros ->. eexists. split; reflexivity.
    + intros _. eexists. split; reflexivity.
  - destruct items; [|discriminate]. intros _. eexists. split; reflexivity.
  - destruct kvs; [|discriminate]. intros _. eexists. split; reflexivity.
Qed.

Lemma human_timestamp_ok (tz_obj : option tzinfo) (ent : json) :
  converts tz_obj ent = true ->
  exists h, human_timestamp tz_obj (entry_timestamp ent) = inr h.
Proof.
  intros H. destruct (human_timestamp_shown tz_obj ent H) as (h & Hh & _).
  eauto.
Qed.

Lemma human_timestamp_inr (tz_obj : option tzinfo) (ent : json)
    (h : option pystr) :
  human_timestamp tz_obj (entry_timestamp ent) = inr h ->
  converts tz_obj ent = true.
Proof.
  unfold human_timestamp, converts.
  destruct (entry_timestamp ent) as [ |b|z|f|s|items|kvs]; simpl.
  - reflexivity.
  - destruct b; [discriminate | reflexivity].
  - destruct (Z.eqb z 0); [reflexivity | discriminate].
  - destruct f; try discriminate; reflexivity.
  - destruct s as [|c s]; [reflexivity|].
    destruct (converted_timestamp tz_obj (c :: s)) as [e|h']; [|reflexivity].
    destruct (is_ValueError e); [reflexivity | discriminate].
  - destruct items; [reflexivity | discriminate].
  - destruct kvs; [reflexivity | discriminate].
Qed.

Lemma entry_lines_total (tz_obj : option tzinfo) (entries : list json) :
  Forall (fun e => converts tz_obj e = true) entries ->
  forall s,
    exists ls,
      mapM (entry_lines tz_obj) (combine (seq s (length entries)) entries)
      = inr ls.
Proof.
  induction 1 as [|e entries He _ IH]; intros s; cbn [mapM combine seq length].
  - eexists. reflexivity.
  - destruct (human_timestamp_ok tz_obj e He) as [h Hh].
    destruct (IH (S s)) as [ls Hls].
    rewrite entry_lines_eq, Hh, Hls. simpl.
    eexists. reflexivity.
Qed.

(** Rendering completes when every entry converts. *)
Lemma render_parts_total (tz_obj : option tzinfo) (g : grouped) :
  groups_ok tz_obj g ->
  exists parts, render_parts tz_obj g = inr parts.
Proof.
  intros H. rewrite render_parts_eq.
  destruct (mapM_total (group_lines tz_obj) (xs := g)) as [blocks Hb].
  - eapply Forall_impl; [|exact H].
    intros [k entries] Hk. rewrite group_lines_eq. simpl in Hk.
    destruct (entry_lines_total tz_obj Hk 1) as [ls Hls].
    unfold enumerate1. rewrite Hls. simpl. eexists. reflexivity.
  - rewrite Hb. simpl. eexists. reflexivity.
Qed.

(** Where the rendering shows an entry of a group. *)
Lemma render_parts_shows (tz_obj : option tzinfo) (g g1 g2 : grouped)
    (k : pykey) (es1 es2 : list json) (ent : json) (parts : list pystr) :
  render_parts tz_obj g = inr parts ->
  g = g1 ++ (k, es1 ++ ent :: es2) :: g2 ->
  exists h,
    human_timestamp tz_obj (entry_timestamp ent) = inr h
    /\ shown_in_group parts k (length (es1 ++ ent :: es2)) (S (length es1))
         (payload_line (S (length es1)) (payload_of ent))
         (timestamp_line h).
Proof.
  rewrite render_parts_eq. intros Hr ->.
  destruct (mapM _ _) as [e|blocks] eqn:E; simpl in Hr; [discriminate|].
  injection Hr as <-.
  apply mapM_Forall2 in E.
  apply Forall2_app_inv_l in E as (b1 & b2' & _ & E & ->).
  inversion E as [|item block g' b2 Hblock _]; subst. clear E.
  rewrite group_lines_eq in Hblock. unfold enumerate1 in Hblock.
  rewrite combine_seq_app in Hblock.
  destruct (mapM _ _) as [e|ls] eqn:El; simpl in Hblock; [discriminate|].
  injection Hblock as <-.
  apply mapM_Forall2 in El.
  apply Forall2_app_inv_l in El as (ls1 & ls2' & H1 & El & ->).
  inversion El as [|x l xs ls2 Hl H2]; subst. clear El.
  rewrite entry_lines_eq in Hl.
  destruct (human_timestamp _ _) as [e|h]; simpl in Hl; [discriminate|].
  injection Hl as <-. exists h. split; [reflexivity|].
  exists (concat b1), (concat ls1), (concat ls2), (concat b2).
  assert (L1 : length (concat ls1) = 2 * length es1).
  { rewrite (concat_pairs_length
               (R := fun x l => entry_lines tz_obj x = inr l) (xs := combine (seq 1 (length es1)) es1));
      [|intros x l; apply entry_lines_length | exact H1].
    rewrite length_combine, length_seq. lia. }
  assert (L2 : length (concat ls2) = 2 * length es2).
  { rewrite (concat_pairs_length
               (R := fun x l => entry_lines tz_obj x = inr l)
               (xs := combine (seq (S (1 + length es1)) (length es2)) es2));
      [|intros x l; apply entry_lines_length | exact H2].
    rewrite length_combine, length_seq. lia. }
  rewrite length_app. simpl length.
  repeat split.
  - rewrite !concat_app. simpl.
    rewrite <- !app_assoc. simpl. reflexivity.
  - lia.
  - lia.
  - etransitivity; [exact L1 | lia].
  - etransitivity; [exact L2 | lia].
Qed.

(** ** Grouping *)

Lemma pystr_eqb_eq (a b : pystr) : pystr_eqb a b = true <-> a = b.
Proof.
  revert b. induction a as [|x a IH]; intros [|y b]; simpl;
    try (split; [discriminate | congruence]).
  - split; reflexivity.
  - rewrite andb_true_iff, N.eqb_eq, IH. split.
    + intros [-> ->]. reflexivity.
    + intros [= -> ->]. auto.
Qed.

Lemma key_eqb_str (k : pykey) (s : pystr) :
  key_eqb k (KStr s) = true -> k = KStr s.
Proof.
  destruct k; simpl; try discriminate.
  intros H. apply pystr_eqb_eq in H. congruence.
Qed.

(** [setdefault(...).append(ent)] puts [ent] last in one group, an old
    one or a new last one, and changes nothing else. *)
Lemma setdefault_append_split (g : grouped) (key : pykey) (ent : json) :
  exists g1 k es g2,
    setdefault_append g key ent = g1 ++ (k, es ++ [ent]) :: g2
    /\ (g = g1 ++ (k, es) :: g2 /\ key_eqb k key = true
        \/ g = g1 /\ k = key /\ es = [] /\ g2 = []).
Proof.
  induction g as [|[k0 es0] g IH]; simpl.
  - exists [], key, [], []. split; [reflexivity|]. right. auto.
  - destruct (key_eqb k0 key) eqn:E.
    + exists [], k0, es0, g. split; [reflexivity|]. left. auto.
    + destruct IH as (g1 & k & es & g2 & Heq & Hcase).
      exists ((k0, es0) :: g1), k, es, g2. rewrite Heq.
      split; [reflexivity|].
      destruct Hcase as [[-> Hk] | (-> & -> & -> & ->)]; [left | right]; auto.
Qed.

Lemma total_entries_app (g1 g2 : grouped) :
  total_entries (g1 ++ g2) = total_entries g1 + total_entries g2.
Proof.
  unfold total_entries. rewrite map_app, list_sum_app. reflexivity.
Qed.

Lemma total_entries_setdefault (g : grouped) (key : pykey) (ent : json) :
  total_entries (setdefault_append g key ent) = S (total_entries g).
Proof.
  destruct (setdefault_append_split g key ent)
    as (g1 & k & es & g2 & -> & [[-> _] | (-> & -> & -> & ->)]);
    rewrite !total_entries_app; unfold total_entries; simpl;
    rewrite ?length_app; simpl; lia.
Qed.

Lemma groups_ok_setdefault (tz_obj : option tzinfo) (g : grouped)
    (key : pykey) (ent : json) :
  groups_ok tz_obj g -> converts tz_obj ent = true ->
  groups_ok tz_obj (setdefault_append g key ent).
Proof.
  unfold groups_ok. intros Hg He.
  destruct (setdefault_append_split g key ent)
    as (g1 & k & es & g2 & -> & [[-> _] | (-> & -> & -> & ->)]).
  - apply Forall_app in Hg as [H1 H2].
    inversion H2 as [|x l Hx Hl]; subst.
    apply Forall_app. split; [exact H1|]. constructor; [|exact Hl].
    simpl in *. apply Forall_app. split; [exact Hx|]. constructor; auto.
  - apply Forall_app. split; [exact Hg|]. repeat constructor. exact He.
Qed.

(** What the grouping loop does with an element that is not an object
    with an author, and with one that is. *)
Lemma group_entry_legacy (g : grouped) (entry : json) :
  is_author_entry entry = false ->
  group_entry g entry
  = inr (setdefault_append g (KStr unknown) (legacy_entry entry)).
Proof. intros H. unfold group_entry. rewrite H. reflexivity. Qed.


Lemma group_entry_author_ok_run (g : grouped) (entry : json) :
  author_ok entry = true ->
  exists k, group_entry g entry = inr (setdefault_append g k (kept_entry entry)).
Proof.
  unfold author_ok, group_entry, kept_entry. intros Ha.
  destruct (is_author_entry entry); simpl in *.
  - destruct (truthy (get entry (str "author"))); simpl in *.
    + destruct (hashable (get entry (str "author"))) as [k|]; [|discriminate].
      eauto.
    + eauto.
  - eauto.
Qed.

Lemma group_entry_showable (tz_obj : option tzinfo) (g : grouped)
    (entry : json) :
  showable tz_obj entry = true ->
  exists k ent,
    group_entry g entry = inr (setdefault_append g k ent)
    /\ converts tz_obj ent = true.
Proof.
  unfold showable. intros H. apply andb_prop in H as [Ha Ht].
  destruct (group_entry_author_ok_run g entry Ha) as [k Hk].
  eauto.
Qed.

Lemma for_each_snoc {A S} (body : S -> A -> result S) (xs : list A) (x : A)
    (acc : S) :
  for_each body (xs ++ [x]) acc
  = rbind (for_each body xs acc) (fun s => body s x).
Proof.
  revert acc. induction xs as [|y xs IH]; intros acc; simpl.
  - destruct (body acc x); reflexivity.
  - destruct (body acc y); simpl; [reflexivity | apply IH].
Qed.

(** Grouping succeeds on showable elements, and every entry it keeps can
    be rendered. *)
Lemma group_entries_total (tz_obj : option tzinfo) (data : list json) :
  Forall (fun e => showable tz_obj e = true) data ->
  forall acc, groups_ok tz_obj acc ->
    exists g, for_each group_entry data acc = inr g /\ groups_ok tz_obj g.
Proof.
  induction 1 as [|e data He _ IH]; intros acc Hacc; simpl.
  - eauto.
  - destruct (@group_entry_showable tz_obj acc e He) as (k & ent & -> & Hent).
    simpl. apply IH. apply groups_ok_setdefault; assumption.
Qed.

(** Grouping keeps every element once. *)
Lemma group_entries_count (data : list json) :
  forall acc g,
    for_each group_entry data acc = inr g ->
    total_entries g = total_entries acc + length data.
Proof.
  induction data as [|e data IH]; intros acc g; simpl.
  - intros [= <-]. lia.
  - destruct (group_entry acc e) as [x|acc'] eqn:E; simpl; [discriminate|].
    intros H. rewrite (IH _ _ H).
    unfold group_entry in E.
    destruct (is_author_entry e).
    + destruct (hashable _); [|discriminate]. injection E as <-.
      rewrite total_entries_setdefault. lia.
    + injection E as <-. rewrite total_entries_setdefault. lia.
Qed.

(** An entry that sits in a group stays there, under the same key. *)
Lemma in_group_setdefault (g : grouped) (key k : pykey) (ent e : json) :
  in_group g k e -> in_group (setdefault_append g key ent) k e.
Proof.
  intros (entries & Hin & He).
  destruct (setdefault_append_split g key ent)
    as (g1 & k' & es & g2 & -> & [[-> _] | (-> & -> & -> & ->)]).
  - apply in_app_or in Hin as [Hin | [Hin | Hin]].
    + exists entries. split; [apply in_or_app; left|]; assumption.
    + injection Hin as <- <-. exists (es ++ [ent]).
      split; [apply in_or_app; right; left; reflexivity|].
      apply in_or_app. left. assumption.
    + exists entries. split; [apply in_or_app; right; right|]; assumption.
  - exists entries. split; [apply in_or_app; left|]; assumption.
Qed.

Lemma in_group_new (g : grouped) (s : pystr) (ent : json) :
  in_group (setdefault_append g (KStr s) ent) (KStr s) ent.
Proof.
  destruct (setdefault_append_split g (KStr s) ent)
    as (g1 & k' & es & g2 & -> & [[-> Hk] | (-> & -> & -> & ->)]).
  - apply key_eqb_str in Hk. subst k'. exists (es ++ [ent]).
    split; [apply in_or_app; right; left; reflexivity|].
    apply in_or_app. right. left. reflexivity.
  - exists [ent]. split; [apply in_or_app; right; left; reflexivity|].
    left. reflexivity.
Qed.

Lemma group_entry_keeps (g g' : grouped) (entry : json) (k : pykey) (e : json) :
  group_entry g entry = inr g' -> in_group g k e -> in_group g' k e.
Proof.
  unfold group_entry. destruct (is_author_entry entry).
  - destruct (hashable _); [|discriminate]. intros [= <-].
    apply in_group_setdefault.
  - intros [= <-]. apply in_group_setdefault.
Qed.

Lemma for_each_group_keeps (data : list json) (k : pykey) (e : json) :
  forall acc g,
    for_each group_entry data acc = inr g ->
    in_group acc k e -> in_group g k e.
Proof.
  induction data as [|x data IH]; intros acc g; simpl.
  - intros [= <-]. auto.
  - destruct (group_entry acc x) as [?|acc'] eqn:E; simpl; [discriminate|].
    intros H Hin. eapply IH; [exact H|]. eapply group_entry_keeps; eassumption.
Qed.

(** Every legacy element ends up, wrapped, in the group ['unknown']. *)
Lemma group_entries_legacy (data : list json) (e : json) :
  In e data -> is_author_entry e = false ->
  forall acc g,
    for_each group_entry data acc = inr g ->
    in_group g (KStr unknown) (legacy_entry e).
Proof.
  induction data as [|x data IH]; intros Hin He acc g; simpl; [contradiction|].
  destruct (group_entry acc x) as [?|acc'] eqn:E; simpl; [discriminate|].
  intros H. destruct Hin as [-> | Hin].
  - rewrite (group_entry_legacy acc e He) in E. injection E as <-.
    eapply for_each_group_keeps; [exact H|]. apply in_group_new.
  - apply (IH Hin He _ _ H).
Qed.

Lemma in_group_split (g : grouped) (k : pykey) (ent : json) :
  in_group g k ent ->
  exists g1 g2 es1 es2, g = g1 ++ (k, es1 ++ ent :: es2) :: g2.
Proof.
  intros (entries & Hin & He).
  apply in_split in Hin as (g1 & g2 & ->).
  apply in_split in He as (es1 & es2 & ->).
  eauto.
Qed.

(** ** What the reply carries *)

Lemma startswith_app (p s : pystr) : startswith (p ++ s) p = true.
Proof.
  induction p as [|c p IH]; [destruct s; reflexivity|].
  simpl. rewrite N.eqb_refl. exact IH.
Qed.

Lemma hd_tl_concat {A} (ls : list (list A)) :
  hd [] ls ++ concat (tl ls) = concat ls.
Proof. destruct ls; reflexivity. Qed.

(** The messages of the plain pagination carry the text, whole and
    once. *)
Lemma carried_paginate (header txt : pystr) :
  carried header (paginate header txt None) = Some txt.
Proof.
  destruct txt as [|c txt]; [reflexivity|].
  rewrite paginate_plain by (simpl; lia).
  unfold carried. rewrite app_assoc, startswith_app.
  rewrite skipn_app, skipn_all, Nat.sub_diag. cbn [app skipn].
  f_equal. etransitivity;
    [apply (hd_tl_concat (slices (c :: txt))) | apply concat_slices].
Qed.

Lemma group_entry_eq (g : grouped) (entry : json) :
  group_entry g entry
  = match key_of (kept_entry entry) with
    | Some k => inr (setdefault_append g k (kept_entry entry))
    | None => inl TypeError
    end.
Proof.
  unfold group_entry, kept_entry, key_of.
  destruct (is_author_entry entry); reflexivity.
Qed.

Lemma in_group_appended (g : grouped) (k : pykey) (ent : json) :
  exists k', in_group (setdefault_append g k ent) k' ent.
Proof.
  destruct (setdefault_append_split g k ent)
    as (g1 & k' & es & g2 & -> & _).
  exists k', (es ++ [ent]).
  split; [apply in_or_app; right; left; reflexivity|].
  apply in_or_app. right. left. reflexivity.
Qed.

(** Every element of the list is kept in some group. *)
Lemma group_entries_keep (data : list json) (e : json) :
  In e data ->
  forall acc g,
    for_each group_entry data acc = inr g ->
    exists k, in_group g k (kept_entry e).
Proof.
  induction data as [|x data IH]; intros Hin acc g; simpl; [contradiction|].
  rewrite group_entry_eq.
  destruct (key_of (kept_entry x)) as [k|]; simpl; [|discriminate].
  intros H. destruct Hin as [-> | Hin].
  - destruct (in_group_appended acc k (kept_entry e)) as [k' Hk'].
    exists k'. eapply for_each_group_keeps; [exact H | exact Hk'].
  - eapply IH; [exact Hin | exact H].
Qed.

(** A rendering completes only if every entry converts. *)
Lemma render_parts_inr (tz_obj : option tzinfo) (g : grouped)
    (parts : list pystr) :
  render_parts tz_obj g = inr parts -> groups_ok tz_obj g.
Proof.
  intros Hp. unfold groups_ok. apply Forall_forall. intros [k es] Hin.
  apply Forall_forall. intros ent Hent. simpl in Hent.
  apply in_split in Hin as (g1 & g2 & ->).
  apply in_split in Hent as (es1 & es2 & ->).
  edestruct render_parts_shows as (h & Hh & _); [exact Hp | reflexivity |].
  eapply human_timestamp_inr. exact Hh.
Qed.

Lemma no_argument_loading (m : message) :
  startswith (content m) cmd_load = true -> load_argument m = [] ->
  loading m None.
Proof. intros Hs Ha. split; [exact Hs|]. rewrite Ha. reflexivity. Qed.

(** What a [!load] with a usable zone sends when the file decodes and
    the lines 96-138 complete. *)
Lemma handle_load_done (m : message) (tz_obj : option tzinfo)
    (t : text) (v : json) (g : grouped) (parts : list pystr) :
  loading m tz_obj ->
  json_load t = inr v ->
  group_entries (as_list v) = inr g ->
  render_parts tz_obj g = inr parts ->
  handle m (Some t)
  = (Done tt, World (Some t) (paginate saved_header (join nl parts) None))
  /\ carried saved_header (replies (handle m (Some t))) = Some (join nl parts).
Proof.
  intros Hl Ht Hg Hp.
  assert (E : handle m (Some t)
              = (Done tt,
                 World (Some t) (paginate saved_header (join nl parts) None))).
  { rewrite (handle_load_run (Some t) Hl).
    unfold load_outcome, load_parts. rewrite Ht. simpl. rewrite Hg. simpl.
    rewrite Hp. reflexivity. }
  split; [exact E|]. rewrite E. apply carried_paginate.
Qed.

(** What a [!load] sends when every stored element is showable. *)
Lemma handle_load_showable (m : message) (tz_obj : option tzinfo)
    (t : text) (v : json) :
  loading m tz_obj ->
  json_load t = inr v ->
  Forall (fun e => showable tz_obj e = true) (as_list v) ->
  exists g parts,
    group_entries (as_list v) = inr g
    /\ groups_ok tz_obj g
    /\ render_parts tz_obj g = inr parts
    /\ handle m (Some t)
       = (Done tt, World (Some t) (paginate saved_header (join nl parts) None))
    /\ carried saved_header (replies (handle m (Some t)))
       = Some (join nl parts).
Proof.
  intros Hl Ht Hv.
  destruct (group_entries_total Hv (acc := [])) as (g & Hg & Hok);
    [constructor|].
  destruct (render_parts_total Hok) as [parts Hparts].
  exists g, parts.
  destruct (@handle_load_done m tz_obj t v g parts Hl Ht Hg Hparts) as [H1 H2].
  repeat split; assumption.
Qed.

(** ** Timestamps (C3) *)

Lemma groups_ok_insert (tz_obj : option tzinfo) (g1 g2 : grouped) (k : pykey)
    (es1 es2 : list json) (ent : json) :
  groups_ok tz_obj (g1 ++ (k, es1 ++ es2) :: g2) ->
  converts tz_obj ent = true ->
  groups_ok tz_obj (g1 ++ (k, es1 ++ ent :: es2) :: g2).
Proof.
  unfold groups_ok. intros Hg He.
  apply Forall_app in Hg as [H1 H2].
  inversion H2 as [|x l Hx Hl]; subst. simpl in Hx.
  apply Forall_app in Hx as [Hx1 Hx2].
  apply Forall_app. split; [exact H1|]. constructor; [|exact Hl].
  simpl. apply Forall_app. split; [exact Hx1|]. constructor; assumption.
Qed.

Lemma shows_timestamp_intro (tz_obj : option tzinfo) (entry : json)
    (h : option pystr) :
  human_timestamp tz_obj (entry_timestamp (kept_entry entry)) = inr h ->
  shows_timestamp tz_obj entry (format_human_ts h).
Proof.
  intros Hh. unfold shows_timestamp. cbv zeta.
  assert (Hc : converts tz_obj (kept_entry entry) = true)
    by (eapply human_timestamp_inr; exact Hh).
  split; [|split].
  - intros parts idx. rewrite render_entry_append, entry_lines_eq, Hh.
    reflexivity.
  - intros g1 k es1 es2 g2 parts0 H0.
    assert (Hg' : groups_ok tz_obj (g1 ++ (k, es1 ++ kept_entry entry :: es2) :: g2)).
    { apply groups_ok_insert; [|exact Hc]. eapply render_parts_inr. exact H0. }
    destruct (render_parts_total Hg') as [parts Hparts].
    exists parts. split; [exact Hparts|].
    edestruct render_parts_shows as (h' & Hh' & Hshown);
      [exact Hparts | reflexivity |].
    rewrite Hh in Hh'. injection Hh' as <-. exact Hshown.
  - intros m t v Hl Ht Hin Hv.
    destruct (handle_load_showable t Hl Ht Hv)
      as (g & parts & Hg & _ & Hp & Hrun & Hcar).
    destruct (group_entries_keep _ _ Hin _ Hg) as [k Hk].
    destruct (in_group_split Hk) as (g1 & g2 & es1 & es2 & Hsplit).
    edestruct render_parts_shows as (h' & Hh' & Hshown);
      [exact Hp | exact Hsplit |].
    rewrite Hh in Hh'. injection Hh' as <-.
    exists parts, k, (length (es1 ++ kept_entry entry :: es2)), (S (length es1)).
    split; [rewrite Hrun; reflexivity|]. split; [exact Hcar | exact Hshown].
Qed.

Lemma kept_entry_author (entry : json) :
  is_author_entry entry = true -> kept_entry entry = entry.
Proof. intros H. unfold kept_entry. rewrite H. reflexivity. Qed.

Lemma kept_entry_legacy (entry : json) :
  is_author_entry entry = false -> kept_entry entry = legacy_entry entry.
Proof. intros H. unfold kept_entry. rewrite H. reflexivity. Qed.

(** C3, as the code has it. A stored element that is an object with an
    [author] key and whose timestamp is a non-empty string on which
    [fromisoformat] raises [ValueError] is shown with that string, as
    stored, on its Timestamp line: the loop body goes on with the parts
    built so far, a rendering that completes without the entry completes
    with it, and the reply to a file of elements that can be shown
    carries the line. Such an element whose timestamp is null, or the
    empty string, is shown with [None] there, in the same way; and so is
    a stored element without an [author] key, which is shown through its
    wrapper, whatever timestamp it holds. *)
Theorem malformed_timestamp_is_shown_raw (tz_obj : option tzinfo)
    (entry : json) :
  (is_author_entry entry = true ->
   (forall s e,
      entry_timestamp entry = JStr s -> s <> [] ->
      fromisoformat s = inl e -> is_ValueError e = true ->
      shows_timestamp tz_obj entry s)
   /\ (entry_timestamp entry = JNull \/ entry_timestamp entry = JStr [] ->
       shows_timestamp tz_obj entry (str "None")))
  /\ (is_author_entry entry = false ->
      shows_timestamp tz_obj entry (str "None")).
Proof.
  split.
  - intros Ha. split.
    + intros s e Hts Hs Hiso He.
      apply (@shows_timestamp_intro tz_obj entry (Some s)).
      rewrite (kept_entry_author _ Ha), Hts.
      unfold human_timestamp, converted_timestamp.
      destruct s as [|c s]; [congruence|].
      cbn [truthy]. rewrite Hiso. cbn [rbind]. rewrite He. reflexivity.
    + intros Hts.
      apply (@shows_timestamp_intro tz_obj entry None).
      rewrite (kept_entry_author _ Ha).
      destruct Hts as [-> | ->]; reflexivity.
  - intros Ha.
    apply (@shows_timestamp_intro tz_obj entry None).
    rewrite (kept_entry_legacy _ Ha). reflexivity.
Qed.

(** ** The rendering in closed form *)

Lemma mapM_pure {A B} (f : A -> result B) (g : A -> B) (xs : list A) :
  Forall (fun x => f x = inr (g x)) xs ->
  mapM f xs = inr (List.map g xs).
Proof.
  induction 1 as [|x xs Hx _ IH]; [reflexivity|].
  simpl. rewrite Hx. simpl. rewrite IH. reflexivity.
Qed.

Lemma entry_lines_block (tz_obj : option tzinfo) (ie : nat * json) :
  converts tz_obj (snd ie) = true ->
  entry_lines tz_obj ie = inr (entry_block tz_obj ie).
Proof.
  destruct ie as [idx ent]. intros Hok. rewrite entry_lines_eq.
  destruct (human_timestamp_shown tz_obj ent Hok) as (h & -> & Hh).
  simpl. unfold entry_block, timestamp_line, payload_line. simpl.
  rewrite Hh. reflexivity.
Qed.

Lemma group_lines_block (tz_obj : option tzinfo) (item : pykey * list json) :
  Forall (fun e => converts tz_obj e = true) (snd item) ->
  group_lines tz_obj item = inr (group_block tz_obj item).
Proof.
  destruct item as [k es]. intros Hok. rewrite group_lines_eq.
  rewrite (mapM_pure (entry_lines tz_obj) (entry_block tz_obj)).
  - cbn [rbind]. unfold group_block, author_line, enumerate1. cbn [fst snd].
    rewrite flat_map_concat_map. reflexivity.
  - apply Forall_forall. intros [idx ent] Hin.
    apply entry_lines_block. simpl.
    unfold enumerate1 in Hin. apply in_combine_r in Hin.
    simpl in Hok. rewrite Forall_forall in Hok. apply Hok. exact Hin.
Qed.

Lemma render_parts_blocks (tz_obj : option tzinfo) (g : grouped) :
  groups_ok tz_obj g ->
  render_parts tz_obj g = inr (flat_map (group_block tz_obj) g).
Proof.
  intros Hok. rewrite render_parts_eq.
  rewrite (mapM_pure (group_lines tz_obj) (group_block tz_obj)).
  - simpl. rewrite flat_map_concat_map. reflexivity.
  - unfold groups_ok in Hok. eapply Forall_impl; [|exact Hok].
    intros item Hi. apply group_lines_block. exact Hi.
Qed.

Lemma group_block_length (tz_obj : option tzinfo) (item : pykey * list json) :
  length (group_block tz_obj item) = 2 * length (snd item) + 2.
Proof.
  destruct item as [k es]. unfold group_block. cbn [fst snd length].
  rewrite length_app. cbn [length].
  assert (H : forall s,
             length (flat_map (entry_block tz_obj) (combine (seq s (length es)) es))
             = 2 * length es).
  { induction es as [|e es IH]; intros s; [reflexivity|].
    cbn [length seq combine flat_map]. rewrite length_app, IH.
    cbn [entry_block length]. lia. }
  rewrite H. lia.
Qed.

Lemma blocks_length (tz_obj : option tzinfo) (g : grouped) :
  length (flat_map (group_block tz_obj) g)
  = 2 * total_entries g + 2 * length g.
Proof.
  induction g as [|item g IH]; [reflexivity|].
  cbn [flat_map]. rewrite length_app, group_block_length, IH.
  change (total_entries (item :: g))
    with (length (snd item) + total_entries g).
  cbn [length]. lia.
Qed.

(** ** Legacy elements, saving and loading (C8, C1, C2) *)




Lemma author_ok_saved (a ts p : pystr) :
  author_ok (saved_entry_of a ts p) = true.
Proof. destruct a; reflexivity. Qed.

Lemma kept_entry_saved (a ts p : pystr) :
  kept_entry (saved_entry_of a ts p) = saved_entry_of a ts p.
Proof. reflexivity. Qed.

Lemma showable_saved (tz_obj : option tzinfo) (m : message) :
  converts tz_obj (entry_of m) = true -> showable tz_obj (entry_of m) = true.
Proof.
  intros H. unfold showable, entry_of.
  rewrite author_ok_saved, kept_entry_saved. exact H.
Qed.

(** C8. An element that is not an object with an [author] key is put by
    the grouping loop, wrapped, last in the group of key ['unknown']; the
    wrapper has ['unknown'] as its [author], null as its [timestamp] and
    the element as its [payload]; the rendering loop shows the wrapper with
    the element serialized by [json.dumps] on the first line and
    [Timestamp: None] on the second. So, when the file decodes and holds
    only elements that [!load] can show, the handler completes and the
    text that its messages carry shows the element inside the block headed
    [Author: unknown (n message(s))], as some entry [idx] of that group. *)
Theorem legacy_elements_are_unknown (e : json) :
  is_author_entry e = false ->
  (forall g,
     group_entry g e
     = inr (setdefault_append g (KStr (str "unknown")) (legacy_entry e))
     /\ in_group (setdefault_append g (KStr (str "unknown")) (legacy_entry e))
          (KStr (str "unknown")) (legacy_entry e))
  /\ legacy_entry e
     = JDict [(str "author", JStr (str "unknown"));
              (str "timestamp", JNull);
              (str "payload", e)]
  /\ (forall tz_obj parts idx,
        render_entry tz_obj parts (idx, legacy_entry e)
        = inr (parts ++ [str "  " ++ str_of_nat idx ++ str ") " ++ json_dumps e;
                         str "       Timestamp: None"]))
  /\ (forall m tz_obj t v,
        loading m tz_obj ->
        json_load t = inr v ->
        Forall (fun x => showable tz_obj x = true) (as_list v) ->
        In e (as_list v) ->
        exists g parts n idx,
          group_entries (as_list v) = inr g
          /\ in_group g (KStr (str "unknown")) (legacy_entry e)
          /\ fst (handle m (Some t)) = Done tt
          /\ carried (str "Saved messages:") (replies (handle m (Some t)))
             = Some (join nl parts)
          /\ shown_in_group parts (KStr (str "unknown")) n idx
               (str "  " ++ str_of_nat idx ++ str ") " ++ json_dumps e)
               (str "       Timestamp: None")
          /\ author_line (KStr (str "unknown")) n
             = str "Author: unknown (" ++ str_of_nat n ++ str " message(s))").
Proof.
  intros He. split; [|split; [reflexivity | split; [reflexivity|]]].
  { intros g. split; [apply group_entry_legacy; exact He | apply in_group_new]. }
  intros m tz_obj t v Hl Ht Hv Hin.
  destruct (handle_load_showable t Hl Ht Hv)
    as (g & parts & Hg & Hok & Hp & Hh & Hcar).
  assert (Hgr : in_group g (KStr unknown) (legacy_entry e)).
  { eapply group_entries_legacy; [exact Hin | exact He | exact Hg]. }
  destruct (in_group_split Hgr) as (g1 & g2 & es1 & es2 & Hsplit).
  edestruct render_parts_shows as (h & Hhuman & Hshown);
    [exact Hp | exact Hsplit |].
  assert (Ets : entry_timestamp (legacy_entry e) = JNull) by reflexivity.
  rewrite Ets in Hhuman. injection Hhuman as <-.
  exists g, parts, (length (es1 ++ legacy_entry e :: es2)), (S (length es1)).
  split; [exact Hg|]. split; [exact Hgr|].
  split; [rewrite Hh; reflexivity|]. split; [exact Hcar|].
  split; [exact Hshown | reflexivity].
Qed.

Lemma existing_entries_decoded (t : text) (v : json) :
  json_load t = inr v -> existing_entries (Some t) = as_list v.
Proof.
  intros H. unfold existing_entries, read_data. rewrite H. reflexivity.
Qed.

(** The file after a run of saving messages, each answered with the
    confirmation. *)
Lemma file_after_saves (ms : list message) :
  Forall saving ms ->
  forall file,
    all_saved ms file ->
    ms <> [] ->
    exists t,
      file_after_all ms file = Some t
      /\ json_load t
         = inr (JList (existing_entries file ++ List.map entry_of ms)).
Proof.
  unfold file_after_all.
  induction 1 as [|m ms Hm Hms IH]; intros file Hall Hne; [congruence|].
  destruct Hall as [Hrep Hall].
  destruct (handle_save_confirmed file Hm Hrep) as (written & Hd & Hrun).
  assert (Hw := load_dump _ Hd).
  cbn [fold_left]. rewrite Hrun in Hall |- *.
  unfold file_after in Hall |- *. cbn [snd data_file] in Hall |- *.
  destruct ms as [|m' ms].
  - exists written. split; [reflexivity | exact Hw].
  - destruct (IH (Some written) Hall) as (t & Ht & Hload); [discriminate|].
    exists t. split; [exact Ht|].
    rewrite Hload, (@existing_entries_decoded written _ Hw). cbn [as_list].
    rewrite <- app_assoc. reflexivity.
Qed.

(** C1. Let [N] saving messages be handled in turn from an absent file,
    each answered with the confirmation, their timestamps being of those
    that the library converts. A [!load] without argument then completes
    and its messages carry, behind the header, the rendering of the file:
    lines joined by newlines, one block per author group, each block made
    of the author line with the number of entries of the group, two lines
    per entry and an empty line; the groups hold [N] entries in all. For
    [N = 0] the file is still absent and the [!load] answers that no data
    was found. *)
Theorem saves_then_load_counts (ms : list message) (m : message) :
  Forall saving ms ->
  all_saved ms None ->
  Forall (fun mi => converts None (entry_of mi) = true) ms ->
  startswith (content m) cmd_load = true ->
  load_argument m = [] ->
  let file := file_after_all ms None in
  match length ms with
  | 0 =>
      file = None
      /\ handle m file = (Done tt, World None [no_data_reply])
  | S _ =>
      exists t g,
        file = Some t
        /\ json_load t = inr (JList (List.map entry_of ms))
        /\ group_entries (List.map entry_of ms) = inr g
        /\ total_entries g = length ms
        /\ fst (handle m file) = Done tt
        /\ file_after (handle m file) = file
        /\ carried (str "Saved messages:") (replies (handle m file))
           = Some (join nl (flat_map (group_block None) g))
        /\ length (flat_map (group_block None) g)
           = 2 * length ms + 2 * length g
  end.
Proof.
  intros Hms Hall Hconv Hs Ha file.
  assert (Hl := no_argument_loading m Hs Ha).
  destruct ms as [|m0 ms]; simpl length; cbv iota.
  - split; [reflexivity|]. unfold file. simpl.
    rewrite (handle_load_run None Hl). reflexivity.
  - destruct (file_after_saves Hms None Hall) as (t & Hfile & Hload);
      [discriminate|].
    change (existing_entries None) with (@nil json) in Hload.
    rewrite app_nil_l in Hload.
    set (data := List.map entry_of (m0 :: ms)) in *.
    assert (Hshow : Forall (fun e => showable None e = true) (as_list (JList data))).
    { simpl. unfold data. apply Forall_forall. intros e He.
      apply in_map_iff in He as (mi & <- & Hin).
      apply showable_saved. rewrite Forall_forall in Hconv. apply Hconv.
      exact Hin. }
    destruct (handle_load_showable t Hl Hload Hshow)
      as (g & parts & Hg & Hok & Hp & Hh & Hcar).
    simpl as_list in Hg.
    rewrite (render_parts_blocks Hok) in Hp. injection Hp as <-.
    assert (Hn : total_entries g = length (m0 :: ms)).
    { unfold group_entries in Hg. rewrite (group_entries_count _ _ Hg).
      unfold data. rewrite length_map. reflexivity. }
    exists t, g. unfold file. rewrite Hfile.
    split; [reflexivity|]. split; [exact Hload|]. split; [exact Hg|].
    split; [exact Hn|]. split; [rewrite Hh; reflexivity|].
    split; [rewrite Hh; reflexivity|]. split; [exact Hcar|].
    rewrite blocks_length, Hn. reflexivity.
Qed.


(** * Further properties *)

(** ** Dispatch and the store *)

Lemma handle_other (m : message) (file : option text) :
  startswith (content m) cmd_save = false ->
  startswith (content m) cmd_load = false ->
  handle m file = (Done tt, World file []).
Proof.
  intros Hs Hl. unfold handle, on_message. rewrite Hs, Hl. reflexivity.
Qed.

Lemma saving_dec (m : message) : saving m \/ ~ saving m.
Proof.
  unfold saving. destruct (startswith (content m) cmd_save).
  - destruct (save_payload m).
    + right. intros [_ H]. congruence.
    + left. split; [reflexivity | discriminate].
  - right. intros [H _]. discriminate.
Qed.

Lemma handle_file_unless_saving (m : message) (file : option text) :
  ~ saving m -> file_after (handle m file) = file.
Proof.
  intros Hn. destruct (startswith (content m) cmd_save) eqn:Hs.
  - destruct (save_payload m) eqn:Hp.
    + rewrite (handle_save_empty m file Hs Hp). reflexivity.
    + exfalso. apply Hn. split; [exact Hs|]. rewrite Hp. discriminate.
  - destruct (startswith (content m) cmd_load) eqn:Hl.
    + apply handle_load_file. exact Hl.
    + rewrite (handle_other m file Hs Hl). reflexivity.
Qed.

(** X1. No content starts with both prefixes, and a message whose content
    starts with neither is ignored: the handler sends nothing and leaves
    the file as it was. *)
Theorem other_messages_are_ignored (m : message) (file : option text) :
  (startswith (content m) cmd_save = true ->
   startswith (content m) cmd_load = true -> False)
  /\ (startswith (content m) cmd_save = false ->
      startswith (content m) cmd_load = false ->
      handle m file = (Done tt, World file [])).
Proof.
  split.
  - intros Hs Hl. rewrite (load_is_not_save _ Hl) in Hs. discriminate.
  - apply handle_other.
Qed.

(** X2. The store is append-only as far as the handler completes. A
    saving message whose reading raises ends with that exception, the
    file as it was and nothing sent. Otherwise the handler writes the
    dump of the prior content (a lone value that was no array counting as
    one element, an absent file or one that is no JSON as none) followed
    by the new entry: when the writing completes, the message is
    confirmed and the file decodes to these elements, in this order; when
    it raises, the handler ends with that exception, unconfirmed, and the
    file holds what had been written by then. Any message that is not a
    saving one leaves the file as it was. *)
Theorem save_appends (m : message) (file : option text) :
  (saving m ->
   (forall e,
      read_data file = inl e -> handle m file = (Raised e, World file []))
   /\ (forall data written failure,
         read_data file = inr data ->
         json_dump (JList (data ++ [entry_of m])) = (written, failure) ->
         file_after (handle m file) = Some written
         /\ match failure with
            | None =>
                handle m file = (Done tt, World (Some written) [saved_reply])
                /\ json_load written = inr (JList (data ++ [entry_of m]))
            | Some e => handle m file = (Raised e, World (Some written) [])
            end))
  /\ (~ saving m -> file_after (handle m file) = file).
Proof.
  split.
  - intros Hm. rewrite (handle_save_run file Hm). unfold save_outcome. split.
    + intros e ->. reflexivity.
    + intros data written failure -> Hd. rewrite Hd.
      destruct failure as [e|]; split; try reflexivity.
      split; [reflexivity|]. apply load_dump. exact Hd.
  - apply handle_file_unless_saving.
Qed.

(** ** The size of the messages *)

Lemma slice_length (txt : pystr) (i : nat) :
  length (slice txt i max_chunk) <= max_chunk.
Proof. unfold slice. rewrite length_firstn. lia. Qed.

Lemma chunk_message_length (header txt : pystr) (lang : option pystr)
    (i : nat) :
  length (chunk_message header txt lang i)
  <= length header + max_chunk
     + match lang_given lang with
       | Some l => length l + 9
       | None => 1
       end.
Proof.
  unfold chunk_message.
  assert (H := slice_length txt i).
  destruct (Nat.eqb i 0), (lang_given lang) as [l|];
    rewrite ?length_app; change (length nl) with 1;
    change (length (str "```")) with 3; lia.
Qed.

Lemma load_except_short (e : exn) (file : option text) :
  Forall (fun msg => length msg <= 1916) (replies (load_except e file)).
Proof.
  destruct e; unfold replies; cbn [load_except snd sent];
    try constructor; try constructor;
    apply Nat.leb_le; vm_compute; reflexivity.
Qed.

(** X5. No message of the pagination is longer than the header, a
    newline and 1900 characters, nine more and the language when a fence
    is asked for. So each message that [!load] sends, its zone argument
    being absent or resolving, has at most 1916 characters, whatever the
    file holds. *)
Theorem load_messages_are_short :
  (forall header txt lang,
     Forall
       (fun msg =>
          length msg
          <= length header + 1900
             + match lang_given lang with
               | Some l => length l + 9
               | None => 1
               end)
       (paginate header txt lang))
  /\ (forall m tz_obj file,
        loading m tz_obj ->
        Forall (fun msg => length msg <= 1916) (replies (handle m file))).
Proof.
  split.
  - intros header txt lang. unfold paginate. apply Forall_forall.
    intros msg Hin. apply in_map_iff in Hin as (i & <- & _).
    apply chunk_message_length.
  - intros m tz_obj file Hl. rewrite (handle_load_run file Hl).
    unfold load_outcome.
    destruct file as [t|]; [|apply load_except_short].
    destruct (load_parts tz_obj t) as [e|parts]; [apply load_except_short|].
    unfold replies, paginate. cbn [snd sent]. apply Forall_forall.
    intros msg Hin. apply in_map_iff in Hin as (i & <- & _).
    apply (chunk_message_length saved_header (friendly_text parts) None i).
Qed.

(** ** The reply to a store that holds something *)

Lemma slices_head (txt : pystr) :
  0 < length txt -> hd [] (slices txt) = firstn max_chunk txt.
Proof.
  intros H. unfold slices.
  rewrite (py_range_cons H) by (unfold max_chunk; lia). reflexivity.
Qed.

Lemma join_cons_cons (sep x y : pystr) (rest : list pystr) :
  join sep (x :: y :: rest) = x ++ sep ++ join sep (y :: rest).
Proof. reflexivity. Qed.

(** The rendering of groups that are not empty starts with an author
    line and goes on. *)
Lemma rendering_starts (g : grouped) (parts : list pystr) :
  rendering_of g parts -> g <> [] ->
  exists k n l rest, parts = author_line k n :: l :: rest.
Proof.
  intros (blocks & -> & HF) Hg.
  destruct HF as [|[k es] block g' blocks' (lines & -> & _) _]; [congruence|].
  simpl. destruct lines as [|l lines]; simpl; eauto.
Qed.

(** X9. [!load] answers a store that holds something: when the file
    decodes to a list that is not empty, of elements that can be shown,
    at least one message is sent, and the first one starts with the
    header, a newline and the author line of the first group. With C10:
    on a file that decodes to elements that can be shown, [!load] is
    silent exactly for the empty array. *)
Theorem load_of_something_answers (m : message) (tz_obj : option tzinfo)
    (t : text) (v : json) :
  loading m tz_obj ->
  json_load t = inr v ->
  Forall (fun e => showable tz_obj e = true) (as_list v) ->
  (as_list v <> [] ->
   exists first rest,
     replies (handle m (Some t)) = first :: rest
     /\ startswith first (str "Saved messages:" ++ nl ++ str "Author: ") = true)
  /\ (replies (handle m (Some t)) = [] <-> v = JList []).
Proof.
  intros Hl Ht Hv.
  destruct (handle_load_showable t Hl Ht Hv)
    as (g & parts & Hg & _ & Hp & Hh & _).
  assert (Hne : as_list v <> [] ->
                exists first rest,
                  replies (handle m (Some t)) = first :: rest
                  /\ startswith first
                       (str "Saved messages:" ++ nl ++ str "Author: ") = true).
  { intros Hd.
    assert (Hgn : g <> []).
    { intros ->. unfold group_entries in Hg.
      apply group_entries_count in Hg. simpl in Hg.
      destruct (as_list v); [congruence | discriminate]. }
    destruct (rendering_starts (render_parts_shape _ _ Hp) Hgn)
      as (k & n & l & rest & ->).
    rewrite Hh. unfold replies. cbn [snd sent].
    set (txt := join nl (author_line k n :: l :: rest)).
    assert (Etxt : txt = str "Author: "
                         ++ (str_of_key k ++ str " (" ++ str_of_nat n
                             ++ str " message(s))")
                         ++ nl ++ join nl (l :: rest)).
    { unfold txt. rewrite join_cons_cons. unfold author_line.
      rewrite <- !app_assoc. reflexivity. }
    assert (Hlen : 0 < length txt).
    { rewrite Etxt, length_app. change (length (str "Author: ")) with 8. lia. }
    rewrite paginate_plain by exact Hlen. rewrite slices_head by exact Hlen.
    eexists _, _. split; [reflexivity|].
    rewrite Etxt, firstn_app.
    change (firstn max_chunk (str "Author: ")) with (str "Author: ").
    change saved_header with (str "Saved messages:").
    rewrite <- !app_assoc.
    rewrite !(app_assoc (str "Saved messages:")), !(app_assoc _ (str "Author: ")).
    apply startswith_app. }
  split; [exact Hne|]. split.
  - intros Hr. destruct (as_list v) as [|x xs] eqn:Ev.
    + destruct v; try discriminate. simpl in Ev. congruence.
    + destruct Hne as (first & rest & Hfr & _); [discriminate|]. congruence.
  - intros ->. rewrite Hh in *. simpl in Hg. injection Hg as <-.
    simpl in Hp. injection Hp as <-. reflexivity.
Qed.

(** ** What [strip] keeps *)

Lemma lstrip_split (s : pystr) :
  exists pre, s = pre ++ lstrip s /\ forallb isspace pre = true.
Proof.
  induction s as [|c s (pre & IH & Hpre)].
  - exists []. auto.
  - simpl. destruct (isspace c) eqn:Ec.
    + exists (c :: pre). simpl. rewrite Ec, Hpre. split; [congruence | reflexivity].
    + exists []. auto.
Qed.

Lemma lstrip_head (s : pystr) (c : N) (l : pystr) :
  lstrip s = c :: l -> isspace c = false.
Proof.
  induction s as [|d s IH]; simpl; [discriminate|].
  destruct (isspace d) eqn:Ed; [exact IH|].
  intros [= <- _]. exact Ed.
Qed.

Lemma forallb_rev {A} (f : A -> bool) (l : list A) :
  forallb f (rev l) = forallb f l.
Proof.
  induction l as [|x l IH]; [reflexivity|].
  simpl. rewrite forallb_app, IH. simpl. rewrite andb_true_r. apply andb_comm.
Qed.

Lemma rstrip_split (s : pystr) :
  exists post, s = rstrip s ++ post /\ forallb isspace post = true.
Proof.
  destruct (lstrip_split (rev s)) as (pre & E & Hpre).
  exists (rev pre). unfold rstrip. split.
  - rewrite <- rev_app_distr, <- E, rev_involutive. reflexivity.
  - rewrite forallb_rev. exact Hpre.
Qed.

Lemma rstrip_last (s : pystr) (c : N) (l : pystr) :
  rstrip s = c :: l -> isspace (last (c :: l) c) = false.
Proof.
  unfold rstrip. intros H.
  destruct (lstrip (rev s)) as [|d l'] eqn:E; [discriminate|].
  rewrite <- H. simpl rev. rewrite last_last.
  apply (lstrip_head _ E).
Qed.

(** [strip] removes whitespace at both ends and nothing else, and what it
    leaves neither starts nor ends with whitespace. *)
Lemma strip_spec (s : pystr) :
  exists pre post,
    s = pre ++ strip s ++ post
    /\ forallb isspace pre = true
    /\ forallb isspace post = true
    /\ forall c l, strip s = c :: l ->
         isspace c = false /\ isspace (last (c :: l) c) = false.
Proof.
  destruct (lstrip_split s) as (pre & E1 & Hpre).
  destruct (rstrip_split (lstrip s)) as (post & E2 & Hpost).
  exists pre, post. unfold strip.
  split; [rewrite <- E2; exact E1|]. split; [exact Hpre|].
  split; [exact Hpost|].
  intros c l H. split.
  - rewrite H in E2. simpl in E2. eapply lstrip_head. exact E2.
  - eapply rstrip_last. exact H.
Qed.

(** X10. What a saving message stores. The text is the content of the
    message after its first six characters, without the whitespace at
    both ends and unchanged otherwise: it is not empty and neither starts
    nor ends with whitespace. What the handler writes, the reading done,
    is the dump of the prior content followed by one object, with the
    sender's name as [author], the creation time as [timestamp] and this
    text as [payload]; the file holds what was written, and the message
    is confirmed when the writing completes. *)
Theorem saved_payload_is_trimmed (m : message) (file : option text) :
  saving m ->
  exists pre post c l,
    skipn 6 (content m) = pre ++ (c :: l) ++ post
    /\ forallb isspace pre = true
    /\ forallb isspace post = true
    /\ isspace c = false
    /\ isspace (last (c :: l) c) = false
    /\ forall data,
         read_data file = inr data ->
         exists written failure,
           json_dump
             (JList (data
                     ++ [JDict [(str "author", JStr (author m));
                                (str "timestamp",
                                 JStr (timestamp_of (created_at m)));
                                (str "payload", JStr (c :: l))]]))
           = (written, failure)
           /\ file_after (handle m file) = Some written
           /\ (failure = None ->
               handle m file = (Done tt, World (Some written) [saved_reply])).
Proof.
  intros Hm. assert (Hm' := Hm). destruct Hm' as [_ Hp].
  destruct (strip_spec (skipn 6 (content m))) as (pre & post & E & H1 & H2 & H3).
  change (strip (skipn 6 (content m))) with (save_payload m) in E, H3.
  destruct (save_payload m) as [|c l] eqn:Ep; [congruence|].
  destruct (H3 c l eq_refl) as [Hc Hl].
  exists pre, post, c, l.
  split; [exact E|]. split; [exact H1|]. split; [exact H2|].
  split; [exact Hc|]. split; [exact Hl|].
  intros data Hd. rewrite (handle_save_run file Hm).
  unfold save_outcome, entry_of, saved_entry_of. rewrite Hd, Ep.
  destruct (json_dump _) as [written failure].
  exists written, failure. split; [reflexivity|].
  destruct failure as [e|]; split; try reflexivity; discriminate.
Qed.

(** ** The grouping dict *)

Lemma subseq_nil_l {A} (l : list A) : subseq [] l.
Proof. induction l; constructor; assumption. Qed.

Lemma subseq_app_r {A} (a l : list A) (x : A) :
  subseq a l -> subseq a (l ++ [x]).
Proof.
  induction 1; simpl.
  - apply subseq_nil_l.
  - apply subseq_skip. assumption.
  - apply subseq_take. assumption.
Qed.

Lemma subseq_snoc {A} (a l : list A) (x : A) :
  subseq a l -> subseq (a ++ [x]) (l ++ [x]).
Proof.
  induction 1; simpl.
  - apply subseq_take. apply subseq_nil.
  - apply subseq_skip. assumption.
  - apply subseq_take. assumption.
Qed.

Lemma setdefault_perm (g : grouped) (k : pykey) (ent : json) :
  Permutation (concat (List.map snd (setdefault_append g k ent)))
    (concat (List.map snd g) ++ [ent]).
Proof.
  induction g as [|[k0 es0] g IH]; simpl.
  - reflexivity.
  - destruct (key_eqb k0 k); simpl.
    + rewrite <- !app_assoc. apply Permutation_app_head.
      apply Permutation_app_comm.
    + rewrite <- app_assoc. apply Permutation_app_head. exact IH.
Qed.

Lemma setdefault_subseq (g : grouped) (k : pykey) (ent : json)
    (L : list json) :
  Forall (fun item => subseq (snd item) L) g ->
  Forall (fun item => subseq (snd item) (L ++ [ent]))
    (setdefault_append g k ent).
Proof.
  induction 1 as [|[k0 es0] g H0 Hg IH]; simpl.
  - constructor; [|constructor]. simpl.
    apply (subseq_snoc (a := []) ent (subseq_nil_l L)).
  - destruct (key_eqb k0 k).
    + constructor.
      * simpl. apply subseq_snoc. exact H0.
      * eapply Forall_impl; [|exact Hg].
        intros item Hi. apply subseq_app_r. exact Hi.
    + constructor; [|exact IH]. simpl. apply subseq_app_r. exact H0.
Qed.

Lemma for_each_group_partition (data : list json) :
  forall acc g L,
    for_each group_entry data acc = inr g ->
    Permutation (concat (List.map snd g))
      (concat (List.map snd acc) ++ List.map kept_entry data)
    /\ (Forall (fun item => subseq (snd item) L) acc ->
        Forall (fun item => subseq (snd item) (L ++ List.map kept_entry data))
          g).
Proof.
  induction data as [|e data IH]; intros acc g L; simpl.
  - intros [= <-]. rewrite !app_nil_r. split; [reflexivity | auto].
  - rewrite group_entry_eq.
    destruct (key_of (kept_entry e)) as [k|]; simpl; [|discriminate].
    intros H.
    destruct (IH _ _ (L ++ [kept_entry e]) H) as [Hperm Hsub]. split.
    + rewrite Hperm.
      rewrite (setdefault_perm acc k (kept_entry e)), <- app_assoc.
      reflexivity.
    + intros Hacc.
      replace (L ++ kept_entry e :: List.map kept_entry data)
        with ((L ++ [kept_entry e]) ++ List.map kept_entry data)
        by (rewrite <- app_assoc; reflexivity).
      apply Hsub. apply setdefault_subseq. exact Hacc.
Qed.

(** X6. Grouping is a stable partition of the stored elements: the
    entries of all groups together are, up to their order, the elements of
    the list (a legacy element as its wrapper), none dropped, repeated or
    made up; and the entries of each group stand in the order in which
    the list holds them. *)
Theorem grouping_is_a_stable_partition (data : list json) (g : grouped) :
  group_entries data = inr g ->
  Permutation (concat (List.map snd g)) (List.map kept_entry data)
  /\ Forall (fun item => subseq (snd item) (List.map kept_entry data)) g.
Proof.
  intros H. destruct (for_each_group_partition data [] [] H) as [Hp Hs].
  split; [exact Hp|]. apply Hs. constructor.
Qed.

(** ** The keys of the groups *)

Lemma pystr_eqb_refl (s : pystr) : pystr_eqb s s = true.
Proof. apply pystr_eqb_eq. reflexivity. Qed.

Lemma key_eqb_refl (k : pykey) : key_eqb k k = true.
Proof.
  destruct k as [|b|z|f|s]; simpl.
  - reflexivity.
  - destruct b; reflexivity.
  - apply Z.eqb_refl.
  - destruct f as [s|s| |s m e]; simpl; try reflexivity.
    + destruct s; reflexivity.
    + unfold SFeqb, SFcompare.
      destruct s; rewrite Z.compare_refl;
        change (Pos.compare_cont Eq m m) with (Pos.compare m m);
        rewrite Pos.compare_refl; reflexivity.
  - apply pystr_eqb_refl.
Qed.

Lemma setdefault_keys (g : grouped) (k : pykey) (ent : json) :
  key_of ent = Some k ->
  keys_distinct g -> Forall group_keyed g ->
  keys_distinct (setdefault_append g k ent)
  /\ Forall group_keyed (setdefault_append g k ent)
  /\ (Forall (fun item => key_eqb (fst item) k = false) g ->
      setdefault_append g k ent = g ++ [(k, [ent])]).
Proof.
  intros Hk. induction g as [|[k0 es0] g IH]; simpl; intros Hd Hg.
  - split; [split; [constructor | exact I]|]. split; [|reflexivity].
    constructor; [|constructor]. split; [discriminate|].
    constructor; [|constructor]. exists k. split; [exact Hk|].
    apply key_eqb_refl.
  - destruct Hd as [Hd0 Hd]. inversion Hg as [|x l [Hne Hes] Hg']; subst.
    simpl in Hne, Hes.
    destruct (IH Hd Hg') as (IH1 & IH2 & IH3).
    destruct (key_eqb k0 k) eqn:E.
    + split; [simpl; auto|]. split.
      * constructor; [|exact Hg']. split; simpl.
        -- destruct es0; discriminate.
        -- apply Forall_app. split; [exact Hes|].
           constructor; [|constructor]. exists k. auto.
      * intros HF. inversion HF as [|y l' Hy _]; subst. simpl in Hy.
        congruence.
    + assert (Hfresh : Forall (fun item => key_eqb k0 (fst item) = false)
                         (setdefault_append g k ent)).
      { destruct (setdefault_append_split g k ent)
          as (g1 & k' & es & g2 & -> & [[-> Hk'] | (-> & -> & -> & ->)]).
        - apply Forall_app in Hd0 as [H1 H2].
          inversion H2; subst. apply Forall_app. split; [exact H1|].
          constructor; assumption.
        - apply Forall_app. split; [exact Hd0|].
          constructor; [exact E | constructor]. }
      split; [simpl; auto|]. split.
      * constructor; [split; assumption | exact IH2].
      * intros HF. inversion HF; subst. rewrite IH3 by assumption.
        reflexivity.
Qed.

Lemma for_each_group_keys (data : list json) :
  forall acc g,
    for_each group_entry data acc = inr g ->
    keys_distinct acc -> Forall group_keyed acc ->
    keys_distinct g /\ Forall group_keyed g.
Proof.
  induction data as [|e data IH]; intros acc g; simpl.
  - intros [= <-]. auto.
  - rewrite group_entry_eq.
    destruct (key_of (kept_entry e)) as [k|] eqn:Ek; simpl; [|discriminate].
    intros H Hd Hg.
    destruct (@setdefault_keys acc k (kept_entry e) Ek Hd Hg) as (H1 & H2 & _).
    apply (IH _ _ H H1 H2).
Qed.

(** X7. One block per author. In the dict that grouping builds no group
    is empty, no key is equal to the key of a later group ([True], [1] and
    [1.0] counting as equal, as for a Python dict), and every entry of a
    group was filed under a key equal to the key of its group; an element
    whose key matches no group opens a new group behind the others. *)
Theorem groups_have_distinct_keys (data : list json) (g : grouped) :
  group_entries data = inr g ->
  keys_distinct g
  /\ Forall
       (fun item =>
          snd item <> []
          /\ Forall (fun ent => exists k, key_of ent = Some k
                                          /\ key_eqb (fst item) k = true)
               (snd item))
       g
  /\ forall e k,
       key_of (kept_entry e) = Some k ->
       Forall (fun item => key_eqb (fst item) k = false) g ->
       group_entries (data ++ [e]) = inr (g ++ [(k, [kept_entry e])]).
Proof.
  intros H.
  destruct (@for_each_group_keys data [] g H I (Forall_nil _)) as [Hd Hg].
  split; [exact Hd|]. split; [exact Hg|].
  intros e k Hk Hfresh. unfold group_entries in *.
  rewrite for_each_snoc, H. simpl. rewrite group_entry_eq, Hk.
  destruct (@setdefault_keys g k (kept_entry e) Hk Hd Hg) as (_ & _ & H3).
  rewrite (H3 Hfresh). reflexivity.
Qed.

(** ** Every element is listed *)

(** X14. The listing is complete: when the file decodes and holds only
    elements that can be shown, the handler completes and the text that
    its messages carry behind the header shows every element of the list,
    as some entry [idx] of some group: its payload (the element itself for
    a legacy one) serialized on one line and its Timestamp line behind
    it. *)
Theorem every_element_is_listed (m : message) (tz_obj : option tzinfo)
    (t : text) (v e : json) :
  loading m tz_obj ->
  json_load t = inr v ->
  Forall (fun x => showable tz_obj x = true) (as_list v) ->
  In e (as_list v) ->
  exists parts k n idx,
    fst (handle m (Some t)) = Done tt
    /\ carried (str "Saved messages:") (replies (handle m (Some t)))
       = Some (join nl parts)
    /\ shown_in_group parts k n idx
         (str "  " ++ str_of_nat idx ++ str ") "
          ++ json_dumps (payload_of (kept_entry e)))
         (str "       Timestamp: " ++ shown_timestamp tz_obj (kept_entry e)).
Proof.
  intros Hl Ht Hv Hin.
  destruct (handle_load_showable t Hl Ht Hv)
    as (g & parts & Hg & Hok & Hp & Hh & Hcar).
  destruct (group_entries_keep _ _ Hin _ Hg) as [k Hk].
  destruct (in_group_split Hk) as (g1 & g2 & es1 & es2 & Hsplit).
  edestruct render_parts_shows as (h & Hhuman & Hshown);
    [exact Hp | exact Hsplit |].
  assert (Hc : converts tz_obj (kept_entry e) = true)
    by (eapply human_timestamp_inr; exact Hhuman).
  destruct (human_timestamp_shown tz_obj (kept_entry e) Hc) as (h' & Hh' & Hfmt).
  rewrite Hhuman in Hh'. injection Hh' as <-.
  unfold timestamp_line in Hshown. rewrite Hfmt in Hshown.
  exists parts, k, (length (es1 ++ kept_entry e :: es2)), (S (length es1)).
  split; [rewrite Hh; reflexivity|]. split; [exact Hcar | exact Hshown].
Qed.

(** ** When [!load] raises *)

Lemma group_entry_author_ok (g g' : grouped) (entry : json) :
  group_entry g entry = inr g' -> author_ok entry = true.
Proof.
  unfold group_entry, author_ok.
  destruct (is_author_entry entry); [|reflexivity]. simpl.
  destruct (truthy (get entry (str "author"))); [|reflexivity]. simpl.
  destruct (hashable _); [reflexivity | discriminate].
Qed.

Lemma group_entries_author_ok (data : list json) :
  forall acc g,
    for_each group_entry data acc = inr g ->
    Forall (fun e => author_ok e = true) data.
Proof.
  induction data as [|e data IH]; intros acc g; simpl; [constructor|].
  destruct (group_entry acc e) as [?|acc'] eqn:E; simpl; [discriminate|].
  intros H. constructor.
  - eapply group_entry_author_ok. exact E.
  - eapply IH. exact H.
Qed.

Lemma load_except_raised (e e' : exn) (file : option text) :
  fst (load_except e file) = Raised e' ->
  load_except e file = (Raised e', World file []).
Proof. destruct e; simpl; intros [= <-] || discriminate; reflexivity. Qed.

(** X4. When [!load] raises. On a file that decodes, a [!load] whose
    zone argument is absent or resolves completes when every stored
    element can be shown; when some element has a list or an object as
    its truthy author, the handler ends with [TypeError]; and whenever it
    ends with an exception, some element could not be shown, no message
    was sent and the file is as it was: the listing is sent whole or not
    at all. *)
Theorem load_raises_on_unshowable (m : message) (tz_obj : option tzinfo)
    (t : text) (v : json) :
  loading m tz_obj ->
  json_load t = inr v ->
  (forallb (showable tz_obj) (as_list v) = true ->
   fst (handle m (Some t)) = Done tt)
  /\ (forallb author_ok (as_list v) = false ->
      handle m (Some t) = (Raised TypeError, World (Some t) []))
  /\ (forall e,
        fst (handle m (Some t)) = Raised e ->
        handle m (Some t) = (Raised e, World (Some t) [])
        /\ forallb (showable tz_obj) (as_list v) = false).
Proof.
  intros Hl Ht.
  assert (H1 : forallb (showable tz_obj) (as_list v) = true ->
               fst (handle m (Some t)) = Done tt).
  { intros E. rewrite forallb_forall in E.
    assert (Hv : Forall (fun e => showable tz_obj e = true) (as_list v))
      by (apply Forall_forall; exact E).
    destruct (handle_load_showable t Hl Ht Hv) as (g & parts & _ & _ & _ & -> & _).
    reflexivity. }
  split; [exact H1|]. split.
  - intros E. rewrite (handle_load_run (Some t) Hl).
    unfold load_outcome, load_parts. rewrite Ht. cbn [rbind].
    destruct (group_entries (as_list v)) as [e|g] eqn:Eg.
    + rewrite (group_entries_raises _ Eg). reflexivity.
    + exfalso. pose proof (group_entries_author_ok _ _ Eg) as Ha.
      rewrite Forall_forall in Ha.
      assert (forallb author_ok (as_list v) = true)
        by (apply forallb_forall; exact Ha).
      congruence.
  - intros e He. split.
    + revert He. rewrite (handle_load_run (Some t) Hl). unfold load_outcome.
      destruct (load_parts tz_obj t) as [e'|parts]; [|discriminate].
      apply load_except_raised.
    + destruct (forallb (showable tz_obj) (as_list v)); [|reflexivity].
      rewrite H1 in He by reflexivity. discriminate.
Qed.

(** ** The handler on a store of its own *)

Lemma mapM_raises {A B} (f : A -> result B) (xs : list A) (e : exn) :
  mapM f xs = inl e -> exists x, In x xs /\ f x = inl e.
Proof.
  induction xs as [|x xs IH]; simpl; [discriminate|].
  destruct (f x) as [e'|y] eqn:E; simpl.
  - intros [= <-]. exists x. auto.
  - destruct (mapM f xs) as [e'|ys]; simpl; [|discriminate].
    intros [= <-]. destruct (IH eq_refl) as (x' & Hin & Hx'). eauto.
Qed.

(** A rendering that raises does so at an entry of a group. *)
Lemma render_parts_raised_at (tz_obj : option tzinfo) (g : grouped) (e : exn) :
  render_parts tz_obj g = inl e ->
  exists ent,
    In ent (concat (List.map snd g))
    /\ human_timestamp tz_obj (entry_timestamp ent) = inl e.
Proof.
  rewrite render_parts_eq.
  destruct (mapM (group_lines tz_obj) g) as [e'|ls] eqn:E; simpl;
    [|discriminate].
  intros [= <-]. apply mapM_raises in E as ([k es] & Hin & Hg).
  rewrite group_lines_eq in Hg.
  destruct (mapM (entry_lines tz_obj) (enumerate1 es)) as [e''|ls] eqn:E';
    simpl in Hg; [|discriminate].
  injection Hg as <-. apply mapM_raises in E' as ([idx ent] & Hie & He).
  rewrite entry_lines_eq in He.
  destruct (human_timestamp tz_obj (entry_timestamp ent)) as [e3|h] eqn:Eh;
    simpl in He; [|discriminate].
  injection He as <-. exists ent. split; [|exact Eh].
  apply in_concat. exists es. split.
  - apply in_map_iff. exists (k, es). auto.
  - unfold enumerate1 in Hie. apply in_combine_r in Hie. exact Hie.
Qed.

Lemma human_timestamp_library (tz_obj : option tzinfo) (ent : json) (e : exn) :
  timestamp_ok ent = true ->
  human_timestamp tz_obj (entry_timestamp ent) = inl e ->
  exists s, entry_timestamp ent = JStr s /\ converted_timestamp tz_obj s = inl e.
Proof.
  unfold timestamp_ok, human_timestamp. intros Hok Hh.
  destruct (entry_timestamp ent) as [ |b|z|f|s|items|kvs]; simpl in Hok, Hh.
  - discriminate.
  - destruct b; discriminate.
  - destruct (Z.eqb z 0); discriminate.
  - destruct f; discriminate.
  - destruct s as [|c s]; [discriminate|].
    destruct (converted_timestamp tz_obj (c :: s)) as [e'|h] eqn:Ec;
      [|discriminate].
    destruct (is_ValueError e'); [discriminate|].
    injection Hh as <-. eauto.
  - destruct items; discriminate.
  - destruct kvs; discriminate.
Qed.

Lemma group_entries_author_total (data : list json) :
  Forall (fun e => author_ok e = true) data ->
  forall acc, exists g, for_each group_entry data acc = inr g.
Proof.
  induction 1 as [|e data He _ IH]; intros acc; simpl; [eauto|].
  destruct (group_entry_author_ok_run acc e He) as [k ->]. simpl. apply IH.
Qed.

Lemma well_typed_saved (m : message) : well_typed (entry_of m) = true.
Proof.
  unfold well_typed, entry_of. rewrite author_ok_saved, kept_entry_saved.
  unfold timestamp_ok, saved_entry_of.
  apply orb_true_r.
Qed.

(** On a file of well-typed elements, what a [!load] with a usable zone
    raises was raised by the reading or by a conversion. *)
Lemma load_raises_library (tz_obj : option tzinfo) (t : text) (e : exn) :
  store_ok (Some t) ->
  load_parts tz_obj t = inl e ->
  json_load t = inl e
  \/ exists x s,
       In x (existing_entries (Some t))
       /\ entry_timestamp (kept_entry x) = JStr s
       /\ converted_timestamp tz_obj s = inl e.
Proof.
  unfold store_ok, load_parts. intros Hok.
  destruct (json_load t) as [e'|v] eqn:Ht; simpl.
  { intros [= <-]. left. reflexivity. }
  rewrite (@existing_entries_decoded t v Ht) in Hok |- *.
  assert (Ha : Forall (fun x => author_ok x = true) (as_list v)).
  { eapply Forall_impl; [|exact Hok]. intros x Hx.
    apply andb_prop in Hx as [Hx _]. exact Hx. }
  destruct (group_entries_author_total Ha []) as [g Hg].
  unfold group_entries. rewrite Hg. simpl.
  intros Hr. right.
  destruct (render_parts_raised_at _ _ Hr) as (ent & Hin & Hh).
  destruct (for_each_group_partition (as_list v) [] [] Hg) as [Hperm _].
  simpl in Hperm. apply (Permutation_in _ Hperm) in Hin.
  apply in_map_iff in Hin as (x & <- & Hx).
  rewrite Forall_forall in Hok. specialize (Hok x Hx).
  apply andb_prop in Hok as [_ Hts].
  destruct (human_timestamp_library _ _ Hts Hh) as (s & Hs & Hc).
  exists x, s. auto.
Qed.

(** X3. The handler on a store of its own. Let the file hold nothing, or
    only elements on which the handler's own code raises no [TypeError]
    (author falsy or hashable, timestamp falsy or a string), as the
    entries that [!save] writes are. Then a message whose handling does
    not raise leaves such a file; and whatever exception a handling ends
    with was raised by a library call: by [ZoneInfo] on the argument, by
    the reading of the file, by the writing of the prior content with the
    new entry, or by lines 120-129 on the timestamp of a stored
    element. *)
Theorem own_store_raises_only_library_errors (m : message)
    (file : option text) :
  store_ok file ->
  ((forall e, fst (handle m file) <> Raised e) ->
   store_ok (file_after (handle m file)))
  /\ (forall e,
        fst (handle m file) = Raised e ->
        (load_argument m <> [] /\ ZoneInfo (load_argument m) = inl e)
        \/ (exists t, file = Some t /\ json_load t = inl e)
        \/ (exists written,
              json_dump (JList (existing_entries file ++ [entry_of m]))
              = (written, Some e))
        \/ (exists tz_obj x s,
              In x (existing_entries file)
              /\ entry_timestamp (kept_entry x) = JStr s
              /\ converted_timestamp tz_obj s = inl e)).
Proof.
  intros Hok. split.
  - intros Hn. destruct (saving_dec m) as [Hm | Hm].
    + revert Hn. rewrite (handle_save_run file Hm). unfold save_outcome.
      unfold store_ok, existing_entries in Hok.
      destruct (read_data file) as [e|data]; [intros Hn; destruct (Hn e eq_refl)|].
      destruct (json_dump _) as [written [e|]] eqn:Hd;
        [intros Hn; destruct (Hn e eq_refl)|].
      intros _. unfold file_after, store_ok. cbn [snd data_file].
      rewrite (@existing_entries_decoded written _ (load_dump _ Hd)). cbn [as_list].
      apply Forall_app. split; [exact Hok|].
      constructor; [apply well_typed_saved | constructor].
    + rewrite (handle_file_unless_saving file Hm). exact Hok.
  - intros e. destruct (startswith (content m) cmd_save) eqn:Hs.
    + destruct (save_payload m) eqn:Hp.
      * rewrite (handle_save_empty m file Hs Hp). discriminate.
      * assert (Hm : saving m) by (split; [exact Hs | rewrite Hp; discriminate]).
        rewrite (handle_save_run file Hm). unfold save_outcome, existing_entries.
        unfold read_data.
        destruct file as [t|].
        -- destruct (json_load t) as [e'|v] eqn:Ht.
           ++ destruct (read_recovered e').
              ** destruct (json_dump _) as [written [e''|]];
                   [|discriminate].
                 intros [= <-]. right. right. left. eauto.
              ** intros [= <-]. right. left. eauto.
           ++ destruct (json_dump _) as [written [e''|]]; [|discriminate].
              intros [= <-]. right. right. left. eauto.
        -- destruct (json_dump _) as [written [e''|]]; [|discriminate].
           intros [= <-]. right. right. left. eauto.
    + destruct (startswith (content m) cmd_load) eqn:Hl.
      * destruct (load_cases m Hl) as [[tz Hz] | [Ha [e' Hz]]].
        -- rewrite (handle_load_run file Hz). unfold load_outcome.
           destruct file as [t|]; [|discriminate].
           destruct (load_parts tz t) as [e'|parts] eqn:Ep; [|discriminate].
           intros He. apply load_except_raised in He.
           assert (e' = e) by (destruct e'; simpl in He; congruence).
           subst e'.
           destruct (@load_raises_library tz t e Hok Ep) as [Ht | (x & s & H1 & H2 & H3)].
           ++ right. left. eauto.
           ++ right. right. right. exists tz, x, s. auto.
        -- rewrite (handle_load_zone_raises m file Hl Ha Hz).
           intros He. left. split; [exact Ha|].
           destruct e'; simpl in He; try discriminate; congruence.
      * rewrite (handle_other m file Hs Hl). discriminate.
Qed.

(** ** The zone changes the Timestamp lines only *)

Lemma entry_blocks_zone (tz1 tz2 : option tzinfo) (ies : list (nat * json)) :
  Forall2 same_but_timestamp
    (flat_map (entry_block tz1) ies) (flat_map (entry_block tz2) ies).
Proof.
  induction ies as [|ie ies IH]; [constructor|].
  cbn [flat_map entry_block app].
  constructor; [left; reflexivity|].
  constructor; [|exact IH].
  right. split; apply startswith_app.
Qed.

Lemma blocks_zone (tz1 tz2 : option tzinfo) (g : grouped) :
  Forall2 same_but_timestamp
    (flat_map (group_block tz1) g) (flat_map (group_block tz2) g).
Proof.
  induction g as [|item g IH]; [constructor|].
  cbn [flat_map]. apply Forall2_app; [|exact IH].
  unfold group_block. constructor; [left; reflexivity|].
  apply Forall2_app; [apply entry_blocks_zone|].
  constructor; [left; reflexivity | constructor].
Qed.

(** X8. The zone argument changes nothing but the Timestamp lines. Two
    renderings of the same groups, for two requested zones (or none),
    that both complete have the same number of lines, and at each place
    either the same line or two Timestamp lines. So it is with the texts
    that two [!load] carry on a file of elements that can be shown for
    both zones. *)
Theorem zone_changes_timestamps_only (tz1 tz2 : option tzinfo) :
  (forall g parts1 parts2,
     render_parts tz1 g = inr parts1 ->
     render_parts tz2 g = inr parts2 ->
     Forall2 same_but_timestamp parts1 parts2)
  /\ (forall m1 m2 t v,
        loading m1 tz1 -> loading m2 tz2 ->
        json_load t = inr v ->
        Forall (fun x => showable tz1 x = true) (as_list v) ->
        Forall (fun x => showable tz2 x = true) (as_list v) ->
        exists parts1 parts2,
          carried (str "Saved messages:") (replies (handle m1 (Some t)))
          = Some (join nl parts1)
          /\ carried (str "Saved messages:") (replies (handle m2 (Some t)))
             = Some (join nl parts2)
          /\ Forall2 same_but_timestamp parts1 parts2).
Proof.
  assert (Hr : forall g parts1 parts2,
             render_parts tz1 g = inr parts1 ->
             render_parts tz2 g = inr parts2 ->
             Forall2 same_but_timestamp parts1 parts2).
  { intros g parts1 parts2 H1 H2.
    rewrite (render_parts_blocks (render_parts_inr _ _ H1)) in H1.
    rewrite (render_parts_blocks (render_parts_inr _ _ H2)) in H2.
    injection H1 as <-. injection H2 as <-. apply blocks_zone. }
  split; [exact Hr|].
  intros m1 m2 t v Hl1 Hl2 Ht Hv1 Hv2.
  destruct (handle_load_showable t Hl1 Ht Hv1)
    as (g1 & parts1 & Hg1 & _ & Hp1 & _ & Hc1).
  destruct (handle_load_showable t Hl2 Ht Hv2)
    as (g2 & parts2 & Hg2 & _ & Hp2 & _ & Hc2).
  rewrite Hg1 in Hg2. injection Hg2 as <-.
  exists parts1, parts2. split; [exact Hc1|]. split; [exact Hc2|].
  apply (Hr g1); assumption.
Qed.

(** ** A payload stays on its line *)

Lemma one_line_app (a b : pystr) :
  one_line (a ++ b) = one_line a && one_line b.
Proof. apply forallb_app. Qed.

Lemma one_line_join (sep : pystr) (parts : list pystr) :
  one_line sep = true ->
  Forall (fun p => one_line p = true) parts ->
  one_line (join sep parts) = true.
Proof.
  intros Hsep. induction 1 as [|p parts Hp Hparts IH]; [reflexivity|].
  destruct parts as [|q parts]; [exact Hp|].
  rewrite join_cons_cons, !one_line_app, Hp, Hsep, IH. reflexivity.
Qed.

Lemma one_line_escape_char (c : N) : one_line (escape_char c) = true.
Proof.
  unfold escape_char.
  destruct (N.eqb_spec c 34); [reflexivity|].
  destruct (N.eqb_spec c 92); [reflexivity|].
  destruct (N.eqb_spec c 10); [reflexivity|].
  destruct (N.eqb_spec c 13); [reflexivity|].
  destruct (N.eqb_spec c 9); [reflexivity|].
  destruct (N.eqb_spec c 8); [reflexivity|].
  destruct (N.eqb_spec c 12); [reflexivity|].
  destruct (N.ltb_spec c 32).
  - rewrite one_line_app. simpl one_line at 1. cbn [andb].
    unfold one_line, hex_digit. cbn [forallb].
    generalize (c / 16)%N, (c mod 16)%N. intros q r.
    destruct (q <? 10)%N, (r <? 10)%N;
      repeat match goal with
             | |- context [N.eqb ?a 10] =>
                 destruct (N.eqb_spec a 10); [exfalso; lia|]
             end; reflexivity.
  - unfold one_line. cbn [forallb].
    destruct (N.eqb_spec c 10); [contradiction | reflexivity].
Qed.

Lemma one_line_quote (s : pystr) : one_line (quote s) = true.
Proof.
  unfold quote. rewrite !one_line_app. simpl one_line at 1.
  replace (one_line (flat_map escape_char s)) with true; [reflexivity|].
  symmetry. induction s as [|c s IH]; [reflexivity|].
  simpl. rewrite one_line_app, one_line_escape_char, IH. reflexivity.
Qed.

Lemma one_line_uint (d : Decimal.uint) :
  one_line (str (NilEmpty.string_of_uint d)) = true.
Proof. induction d; simpl; auto. Qed.

Lemma one_line_str_of_nat (n : nat) : one_line (str_of_nat n) = true.
Proof.
  unfold str_of_nat, NilZero.string_of_uint.
  destruct (Nat.to_uint n); try reflexivity; apply one_line_uint.
Qed.

Lemma one_line_str_of_int (z : Z) : one_line (str_of_int z) = true.
Proof.
  unfold str_of_int, NilZero.string_of_int, NilZero.string_of_uint.
  destruct (Z.to_int z) as [d|d]; destruct d; try reflexivity;
    apply (one_line_uint (_ d)) || (simpl; apply one_line_uint).
Qed.

Lemma json_induction (P : json -> Prop) :
  P JNull ->
  (forall b, P (JBool b)) ->
  (forall z, P (JInt z)) ->
  (forall f, P (JFloat f)) ->
  (forall s, P (JStr s)) ->
  (forall items, Forall P items -> P (JList items)) ->
  (forall kvs, Forall (fun kv => P (snd kv)) kvs -> P (JDict kvs)) ->
  forall v, P v.
Proof.
  intros Hn Hb Hi Hf Hs Hl Hd.
  fix IH 1. intros [ |b|z|f|s|items|kvs].
  - exact Hn.
  - apply Hb.
  - apply Hi.
  - apply Hf.
  - apply Hs.
  - apply Hl.
    exact ((fix go (l : list json) : Forall P l :=
              match l with
              | [] => Forall_nil P
              | x :: r => Forall_cons x (IH x) (go r)
              end) items).
  - apply Hd.
    exact ((fix go (l : list (pystr * json))
              : Forall (fun kv => P (snd kv)) l :=
              match l with
              | [] => Forall_nil _
              | kv :: r => Forall_cons kv (IH (snd kv)) (go r)
              end) kvs).
Qed.

Lemma one_line_json_dumps :
  (forall f, one_line (float_repr f) = true) ->
  forall v, one_line (json_dumps v) = true.
Proof.
  intros Hfloat. apply json_induction.
  - reflexivity.
  - intros []; reflexivity.
  - apply one_line_str_of_int.
  - intros [s|[]| |s m e]; try reflexivity; apply Hfloat.
  - apply one_line_quote.
  - intros items H. cbn [json_dumps]. rewrite !one_line_app.
    rewrite one_line_join; [reflexivity | reflexivity|].
    apply Forall_forall. intros p Hp.
    apply in_map_iff in Hp as (x & <- & Hx).
    rewrite Forall_forall in H. apply H. exact Hx.
  - intros kvs H. cbn [json_dumps]. rewrite !one_line_app.
    rewrite one_line_join; [reflexivity | reflexivity|].
    apply Forall_forall. intros p Hp.
    apply in_map_iff in Hp as ([k x] & <- & Hx).
    rewrite !one_line_app, one_line_quote. simpl.
    rewrite Forall_forall in H. apply (H _ Hx).
Qed.

(** X11. A payload stays on its line. [json.dumps] escapes the newlines
    of a text, so the line [  idx) ...] of a stored text holds no newline,
    whatever the text; the same holds for every stored value when the
    [repr] of a float holds none. A saved text cannot add lines to the
    listing. *)
Theorem payload_line_is_one_line (idx : nat) :
  (forall s, one_line (payload_line idx (JStr s)) = true)
  /\ ((forall f, one_line (float_repr f) = true) ->
      forall v, one_line (payload_line idx v) = true).
Proof.
  assert (H : forall v, one_line (json_dumps v) = true ->
                   one_line (payload_line idx v) = true).
  { intros v Hv. unfold payload_line.
    rewrite !one_line_app, one_line_str_of_nat, Hv. reflexivity. }
  split.
  - intros s. apply H. apply one_line_quote.
  - intros Hfloat v. apply H. apply one_line_json_dumps. exact Hfloat.
Qed.

(** ** Quoting loses nothing *)

Lemma unhex_hex (n : N) : (n < 16)%N -> unhex (hex_digit n) = n.
Proof.
  intros H. unfold unhex, hex_digit.
  destruct (N.ltb_spec n 10).
  - destruct (N.ltb_spec (48 + n) 58); lia.
  - destruct (N.ltb_spec (87 + n) 58); lia.
Qed.

Lemma unescape_escape_char (c : N) (rest : pystr) :
  unescape (escape_char c ++ rest) = option_map (cons c) (unescape rest).
Proof.
  unfold escape_char.
  destruct (N.eqb_spec c 34); [subst; reflexivity|].
  destruct (N.eqb_spec c 92); [subst; reflexivity|].
  destruct (N.eqb_spec c 10); [subst; reflexivity|].
  destruct (N.eqb_spec c 13); [subst; reflexivity|].
  destruct (N.eqb_spec c 9); [subst; reflexivity|].
  destruct (N.eqb_spec c 8); [subst; reflexivity|].
  destruct (N.eqb_spec c 12); [subst; reflexivity|].
  destruct (N.ltb_spec c 32).
  - change (unescape ((str "\u00" ++ [hex_digit (c / 16); hex_digit (c mod 16)])
                      ++ rest))
      with (option_map
              (cons (16 * unhex (hex_digit (c / 16))
                     + unhex (hex_digit (c mod 16)))%N)
              (unescape rest)).
    assert (Hq : (c / 16 < 16)%N).
    { apply N.Div0.div_lt_upper_bound. lia. }
    assert (Hr : (c mod 16 < 16)%N) by (apply N.mod_lt; lia).
    rewrite (unhex_hex Hq), (unhex_hex Hr).
    rewrite <- (N.div_mod c 16) by lia. reflexivity.
  - cbn [app unescape]. destruct (N.eqb_spec c 92); [contradiction|].
    reflexivity.
Qed.

Lemma unescape_escaped (s : pystr) :
  unescape (flat_map escape_char s) = Some s.
Proof.
  induction s as [|c s IH]; [reflexivity|].
  cbn [flat_map]. rewrite unescape_escape_char, IH. reflexivity.
Qed.

Lemma quote_injective (s t : pystr) : quote s = quote t -> s = t.
Proof.
  unfold quote. intros H. apply app_inv_head in H. apply app_inv_tail in H.
  apply (f_equal unescape) in H. rewrite !unescape_escaped in H.
  congruence.
Qed.

(** X13. Quoting loses nothing: two different texts have different
    serializations, and are shown by different payload lines at the same
    place of a listing. *)
Theorem different_texts_are_shown_differently (s t : pystr) (idx : nat) :
  s <> t ->
  json_dumps (JStr s) <> json_dumps (JStr t)
  /\ payload_line idx (JStr s) <> payload_line idx (JStr t).
Proof.
  intros Hne. split.
  - intros H. apply Hne. apply quote_injective. exact H.
  - unfold payload_line. intros H.
    rewrite !app_assoc in H. apply app_inv_head in H.
    apply Hne. apply quote_injective. exact H.
Qed.

(** ** The rendering in closed form (X15) *)

(** X15. The rendering in closed form. The rendering completes exactly
    when lines 116-131 raise on no entry, and it is then the blocks of the
    groups one after the other, in the order of the dict; the block of a
    group is its author line with the number of its entries, then, for
    its entries in their order, numbered from 1, the payload line and the
    Timestamp line, then an empty line. The text that the messages of
    [!load] carry behind the header is these lines joined by newlines. *)
Theorem rendering_is_the_blocks (tz_obj : option tzinfo) (g : grouped) :
  (forall parts,
     render_parts tz_obj g = inr parts
     <-> groups_ok tz_obj g /\ parts = flat_map (group_block tz_obj) g)
  /\ forall m t v,
       loading m tz_obj ->
       json_load t = inr v ->
       group_entries (as_list v) = inr g ->
       groups_ok tz_obj g ->
       replies (handle m (Some t))
       = paginate (str "Saved messages:")
           (join nl (flat_map (group_block tz_obj) g)) None
       /\ carried (str "Saved messages:") (replies (handle m (Some t)))
          = Some (join nl (flat_map (group_block tz_obj) g)).
Proof.
  split.
  - intros parts. split.
    + intros H. assert (Hok := render_parts_inr _ _ H).
      rewrite (render_parts_blocks Hok) in H. injection H as <-. auto.
    + intros [Hok ->]. apply render_parts_blocks. exact Hok.
  - intros m t v Hl Ht Hg Hok.
    destruct (@handle_load_done m tz_obj t v g _ Hl Ht Hg
                (render_parts_blocks Hok)) as [H1 H2].
    split; [rewrite H1; reflexivity | exact H2].
Qed.

(** ** Pagination between fences *)

Lemma lang_given_cons (c : N) (l : pystr) :
  lang_given (Some (c :: l)) = Some (c :: l).
Proof. reflexivity. Qed.

(** X16. Pagination with a language. When a language that is not empty
    is given, the slices are those of the plain pagination, one message
    per slice, each slice between code fences of that language, the first
    message behind the header and a newline; an empty language counts as
    none. *)
Theorem pagination_between_fences (header txt l : pystr) :
  l <> [] ->
  0 < length txt ->
  paginate header txt (Some l)
  = (header ++ nl ++ fenced l (hd [] (slices txt)))
    :: List.map (fenced l) (tl (slices txt))
  /\ length (paginate header txt (Some l)) = length (paginate header txt None)
  /\ paginate header txt (Some []) = paginate header txt None.
Proof.
  intros Hl Ht. destruct l as [|c l]; [congruence|].
  split; [|split; [|reflexivity]].
  - unfold paginate, slices.
    rewrite (py_range_cons Ht) by (unfold max_chunk; lia).
    cbn [List.map hd tl]. f_equal.
    rewrite !map_map. apply map_ext. intros k.
    unfold chunk_message. rewrite lang_given_cons.
    destruct (Nat.eqb_spec (S k * max_chunk) 0) as [E|_];
      [unfold max_chunk in E; lia | reflexivity].
  - unfold paginate. rewrite !length_map. reflexivity.
Qed.

(** ** Who asks *)

(** X17. The listing does not depend on who asks. [!load] reads the
    content of the message only: two messages with the same content, from
    any senders at any times, are answered alike on the same file, with
    the entries of every author. *)
Theorem load_ignores_the_sender (m1 m2 : message) (file : option text) :
  content m1 = content m2 ->
  startswith (content m1) cmd_load = true ->
  handle m1 file = handle m2 file.
Proof.
  intros Hc Hs.
  assert (Hs2 : startswith (content m2) cmd_load = true)
    by (rewrite <- Hc; exact Hs).
  assert (Ea : load_argument m2 = load_argument m1)
    by (unfold load_argument; rewrite Hc; reflexivity).
  destruct (load_cases m1 Hs) as [[tz Hz] | [Ha [e Hz]]].
  - assert (Hz2 : loading m2 tz).
    { destruct Hz as [_ Hz]. split; [exact Hs2|]. rewrite Ea. exact Hz. }
    rewrite (handle_load_run file Hz), (handle_load_run file Hz2).
    reflexivity.
  - rewrite (handle_load_zone_raises m1 file Hs Ha Hz).
    rewrite (@handle_load_zone_raises m2 file e Hs2); rewrite Ea; auto.
Qed.

End Properties.

(** * The handler on the sample runtime *)

#[local] Existing Instance sample_runtime.

Lemma sample_load_dump (v : json) (t : sample_text) :
  sample_dump v = (t, None) -> sample_load t = inr v.
Proof.
  unfold sample_dump. destruct (has_surrogate v); [discriminate|].
  intros [= <-]. reflexivity.
Qed.

(** ** Runs *)

Example run_three_saves_then_load :
  replies (sample_handle plain_load
             (file_after_all (rt := sample_runtime) three_saves None))
  = [join nl
       [str "Saved messages:";
        str "Author: ann (2 message(s))";
        str "  1) " ++ quote (str "buy milk");
        str "       Timestamp: 2024-05-01T12:00:00+00:00 local";
        str "  2) " ++ quote (str "water the plants");
        str "       Timestamp: 2024-05-01T12:00:00+00:00 local";
        [];
        str "Author: bob (1 message(s))";
        str "  1) " ++ quote (str "call `home`");
        str "       Timestamp: None";
        []]].
Proof. vm_compute. reflexivity. Qed.

Example run_load_legacy_file :
  replies (sample_handle berlin_load (Some legacy_file))
  = [join nl
       [str "Saved messages:";
        str "Author: unknown (2 message(s))";
        str "  1) " ++ quote (str "old note");
        str "       Timestamp: None";
        str "  2) 7";
        str "       Timestamp: None";
        [];
        str "Author: ann (1 message(s))";
        str "  1) " ++ quote (str "hi");
        str "       Timestamp: yesterday";
        []]].
Proof. vm_compute. reflexivity. Qed.

(** A list as author is no key for the grouping dict: the handler ends
    with [TypeError] and sends nothing. *)
Example run_load_unhashable_author :
  sample_handle plain_load
    (Some (Encoded (JList [JDict [(str "author", JList [JInt 1])]])))
  = (Raised TypeError,
     World (Some (Encoded (JList [JDict [(str "author", JList [JInt 1])]]))) []).
Proof. vm_compute. reflexivity. Qed.

(** [True], [1] and [1.0] are one key; the group keeps the first. *)
Example run_group_numeric_authors :
  group_entries
    [JDict [(str "author", JInt 1)];
     JDict [(str "author", JBool true)];
     JDict [(str "author", JFloat (S754_finite false 4503599627370496 (-52)))]]
  = inr [(KInt 1,
          [JDict [(str "author", JInt 1)];
           JDict [(str "author", JBool true)];
           JDict [(str "author",
                   JFloat (S754_finite false 4503599627370496 (-52)))]])].
Proof. vm_compute. reflexivity. Qed.

Example run_quote_escapes :
  quote (str "a" ++ [34; 92; 10; 1; 233]%N)
  = [34%N] ++ str "a\" ++ [34%N] ++ str "\\\n\u0001" ++ [233; 34]%N.
Proof. vm_compute. reflexivity. Qed.

(** What no clause catches ends the handler: a timestamp that the
    library cannot convert, for the zone asked or for any; and a text
    that cannot be encoded, after the file has been emptied. *)
Example run_load_year_9999 :
  sample_handle berlin_load (Some year_9999_file)
  = (Raised OverflowError, World (Some year_9999_file) [])
  /\ replies (sample_handle plain_load (Some year_9999_file))
     = [join nl
          [str "Saved messages:";
           str "Author: ann (1 message(s))";
           str "  1) " ++ quote (str "hi");
           str "       Timestamp: 9999-12-31T23:59:59+00:00 local";
           []]].
Proof. split; vm_compute; reflexivity. Qed.

Example run_save_surrogate :
  fst (sample_handle surrogate_save (Some legacy_file))
  = Raised UnicodeEncodeError
  /\ replies (sample_handle surrogate_save (Some legacy_file)) = []
  /\ existing_entries
       (file_after (sample_handle surrogate_save (Some legacy_file)))
     = [].
Proof. repeat split; vm_compute; reflexivity. Qed.

Example run_load_malformed_zone :
  sample_handle dotdot_load None = (Raised ValueError, World None []).
Proof. vm_compute. reflexivity. Qed.

(** ** The properties at the sample inputs *)

Lemma pagination_chunks_witness :
  0 < length long_text
  /\ length (paginate saved_header long_text None) = 3
  /\ Forall (fun s => length s <= 1900) (slices long_text)
  /\ concat (slices long_text) = long_text.
Proof.
  assert (H : 0 < length long_text)
    by (unfold long_text; rewrite repeat_length; lia).
  pose proof (pagination_chunks saved_header long_text
                (World (T := sample_text) None []) H) as P.
  cbv zeta in P.
  destruct P as (_ & _ & _ & _ & _ & _ & Hle & Hcat & H3).
  split; [exact H|]. split; [|split; assumption].
  apply H3. unfold long_text. apply repeat_length.
Defined.

Lemma save_blank_is_refused_witness :
  startswith (content blank_save) cmd_save = true
  /\ sample_handle blank_save (Some legacy_file)
     = (Returned, World (Some legacy_file) [usage_hint])
  /\ sample_handle blank_save None = (Returned, World None [usage_hint]).
Proof.
  split; [reflexivity|]. split.
  - apply (save_blank_is_refused (rt := sample_runtime) blank_save (Some legacy_file));
      [reflexivity | left; reflexivity].
  - apply (save_blank_is_refused (rt := sample_runtime) blank_save None);
      [reflexivity | right; reflexivity].
Defined.

(** [ZoneInfo] does not know [Mars/Olympus] and refuses [../x]: the
    first [!load] is answered, the second ends with [ValueError]. *)
Lemma unknown_zone_is_refused_witness :
  ZoneInfo (load_argument mars_load) = inl ZoneInfoNotFoundError
  /\ ZoneInfo (load_argument dotdot_load) = inl ValueError
  /\ sample_handle mars_load (Some legacy_file)
     = (Returned,
        World (Some legacy_file)
          [str "Unknown timezone: `Mars/Olympus`. Use an IANA timezone name like `Europe/Berlin`."])
  /\ sample_handle dotdot_load (Some legacy_file)
     = (Raised ValueError, World (Some legacy_file) []).
Proof.
  split; [reflexivity|]. split; [reflexivity|]. split.
  - apply (proj1 (unknown_zone_is_refused (rt := sample_runtime) mars_load
                    (Some legacy_file) (e := ZoneInfoNotFoundError)
                    eq_refl ltac:(discriminate) eq_refl)).
    reflexivity.
  - apply (proj2 (unknown_zone_is_refused (rt := sample_runtime) dotdot_load
                    (Some legacy_file) (e := ValueError)
                    eq_refl ltac:(discriminate) eq_refl)).
    discriminate.
Defined.

(** A file that is no JSON is reset by [!save] and reported by [!load];
    on a file that is no UTF-8 both commands end with
    [UnicodeDecodeError], and on one of opening brackets only, nested too
    deep, with [RecursionError]. *)
Lemma read_recovery_is_asymmetric_witness :
  json_load garbled_file = inl JSONDecodeError
  /\ json_load binary_file = inl UnicodeDecodeError
  /\ json_load deep_file = inl RecursionError
  /\ sample_handle ann_saves (Some garbled_file)
     = (Done tt, World (Some (Encoded (JList [entry_of ann_saves]))) [saved_reply])
  /\ sample_handle plain_load (Some garbled_file)
     = (Done tt, World (Some garbled_file) [corrupted_reply])
  /\ sample_handle plain_load None = (Done tt, World None [no_data_reply])
  /\ sample_handle ann_saves (Some binary_file)
     = (Raised UnicodeDecodeError, World (Some binary_file) [])
  /\ sample_handle plain_load (Some binary_file)
     = (Raised UnicodeDecodeError, World (Some binary_file) [])
  /\ sample_handle ann_saves (Some deep_file)
     = (Raised RecursionError, World (Some deep_file) [])
  /\ sample_handle plain_load (Some deep_file)
     = (Raised RecursionError, World (Some deep_file) []).
Proof.
  assert (Hd : json_load (Runtime := sample_runtime) deep_file
               = inl RecursionError) by (vm_compute; reflexivity).
  assert (Hg : Some garbled_file = None
               \/ exists t, Some garbled_file = Some t
                            /\ json_load t = inl JSONDecodeError).
  { right. exists garbled_file. split; reflexivity. }
  assert (Hsave : saving ann_saves) by (split; [reflexivity | discriminate]).
  assert (Hload : loading plain_load None) by (split; reflexivity).
  pose proof (read_recovery_is_asymmetric (rt := sample_runtime)
                (Some garbled_file)) as [G _].
  pose proof (read_recovery_is_asymmetric (rt := sample_runtime) None)
    as [N _].
  pose proof (read_recovery_is_asymmetric (rt := sample_runtime)
                (Some binary_file)) as [_ B].
  destruct (B binary_file UnicodeDecodeError eq_refl eq_refl
              ltac:(discriminate) ltac:(discriminate)) as [B1 B2].
  pose proof (read_recovery_is_asymmetric (rt := sample_runtime)
                (Some deep_file)) as [_ D].
  destruct (D deep_file RecursionError eq_refl Hd
              ltac:(discriminate) ltac:(discriminate)) as [D1 D2].
  split; [reflexivity|]. split; [reflexivity|]. split; [exact Hd|].
  split; [exact (proj1 (G Hg) ann_saves Hsave)|].
  split; [exact (proj2 (G Hg) plain_load None Hload)|].
  split; [exact (proj2 (N (or_introl eq_refl)) plain_load None Hload)|].
  split; [exact (B1 ann_saves Hsave)|].
  split; [exact (B2 plain_load None Hload)|].
  split; [exact (D1 ann_saves Hsave) | exact (D2 plain_load None Hload)].
Defined.

Lemma load_leaves_the_file_witness :
  file_after (sample_handle berlin_load (Some garbled_file)) = Some garbled_file
  /\ replies (sample_handle berlin_load
                (file_after (sample_handle berlin_load (Some garbled_file))))
     = replies (sample_handle berlin_load (Some garbled_file))
  /\ file_after (sample_handle plain_load (Some legacy_file)) = Some legacy_file.
Proof.
  destruct (load_leaves_the_file (rt := sample_runtime) berlin_load (Some garbled_file) eq_refl)
    as (H1 & _ & H3).
  destruct (load_leaves_the_file (rt := sample_runtime) plain_load (Some legacy_file) eq_refl)
    as (H4 & _).
  split; [exact H1|]. split; [exact H3 | exact H4].
Defined.

Lemma load_of_nothing_is_silent_witness :
  loading berlin_load (Some (str "Europe/Berlin"))
  /\ sample_handle berlin_load (Some (Encoded (JList [])))
     = (Done tt, World (Some (Encoded (JList []))) []).
Proof.
  assert (Hl : loading berlin_load (Some (str "Europe/Berlin"))).
  { split; [reflexivity|]. exists (str "Europe/Berlin").
    split; reflexivity. }
  split; [exact Hl|].
  apply (proj1 (proj2 (load_of_nothing_is_silent (rt := sample_runtime) Hl))). reflexivity.
Defined.

Lemma malformed_timestamp_is_shown_raw_witness :
  shows_timestamp None
    (saved_entry_of (str "ann") (str "yesterday") (str "hi")) (str "yesterday")
  /\ shows_timestamp None empty_timestamp_entry (str "None")
  /\ shows_timestamp None authorless_entry (str "None")
  /\ shows_timestamp None (JInt 7) (str "None").
Proof.
  split; [|split; [|split]].
  - apply (proj1 (proj1 (malformed_timestamp_is_shown_raw (rt := sample_runtime)
                           None
                           (saved_entry_of (str "ann") (str "yesterday") (str "hi")))
                    eq_refl) (str "yesterday") ValueError);
      [reflexivity | discriminate | reflexivity | reflexivity].
  - apply (proj2 (proj1 (malformed_timestamp_is_shown_raw (rt := sample_runtime)
                           None empty_timestamp_entry) eq_refl)).
    right. reflexivity.
  - apply (proj2 (malformed_timestamp_is_shown_raw (rt := sample_runtime)
                    None authorless_entry)).
    reflexivity.
  - apply (proj2 (malformed_timestamp_is_shown_raw (rt := sample_runtime)
                    None (JInt 7))).
    reflexivity.
Defined.

(** C3 as stated fails on two stored entries whose timestamp is a string
    that [fromisoformat] rejects: the empty string, which line 117 takes
    for no timestamp, and the string of an object without [author], which
    lines 103-107 wrap. Both are shown with [None], not with the stored
    string. *)
Lemma timestamp_is_not_always_shown_raw :
  entry_timestamp empty_timestamp_entry = JStr []
  /\ fromisoformat [] = inl ValueError
  /\ entry_timestamp authorless_entry = JStr (str "yesterday")
  /\ fromisoformat (str "yesterday") = inl ValueError
  /\ sample_handle plain_load
       (Some (Encoded (JList [empty_timestamp_entry; authorless_entry])))
     = (Done tt,
        World (Some (Encoded (JList [empty_timestamp_entry; authorless_entry])))
          [join nl
             [str "Saved messages:";
              str "Author: ann (1 message(s))";
              str "  1) " ++ quote (str "hi");
              str "       Timestamp: None";
              [];
              str "Author: unknown (1 message(s))";
              str "  1) {" ++ quote (str "timestamp") ++ str ": "
              ++ quote (str "yesterday") ++ str ", " ++ quote (str "payload")
              ++ str ": " ++ quote (str "hi") ++ str "}";
              str "       Timestamp: None";
              []]])
  /\ ~ shows_timestamp None empty_timestamp_entry []
  /\ ~ shows_timestamp None authorless_entry (str "yesterday")
  /\ ~ (forall (entry : json) (s : pystr) (e : exn),
          entry_timestamp entry = JStr s ->
          fromisoformat s = inl e -> is_ValueError e = true ->
          shows_timestamp None entry s).
Proof.
  assert (H1 : ~ shows_timestamp None empty_timestamp_entry []).
  { intros [Hbody _]. specialize (Hbody [] 1). vm_compute in Hbody.
    discriminate Hbody. }
  assert (H2 : ~ shows_timestamp None authorless_entry (str "yesterday")).
  { intros [Hbody _]. specialize (Hbody [] 1). vm_compute in Hbody.
    discriminate Hbody. }
  split; [reflexivity|]. split; [reflexivity|].
  split; [reflexivity|]. split; [reflexivity|].
  split; [vm_compute; reflexivity|].
  split; [exact H1|]. split; [exact H2|].
  intros H. apply H1.
  apply (H empty_timestamp_entry [] ValueError); reflexivity.
Qed.

Lemma legacy_elements_are_unknown_witness :
  is_author_entry (JStr (str "old note")) = false
  /\ exists g parts n idx,
       group_entries (as_list (JList [JStr (str "old note"); JInt 7;
                                      saved_entry_of (str "ann") (str "yesterday") (str "hi")]))
       = inr g
       /\ in_group g (KStr (str "unknown")) (legacy_entry (JStr (str "old note")))
       /\ fst (sample_handle plain_load (Some legacy_file)) = Done tt
       /\ carried (str "Saved messages:")
            (replies (sample_handle plain_load (Some legacy_file)))
          = Some (join nl parts)
       /\ shown_in_group parts (KStr (str "unknown")) n idx
            (str "  " ++ str_of_nat idx ++ str ") " ++ quote (str "old note"))
            (str "       Timestamp: None")
       /\ author_line (KStr (str "unknown")) n
          = str "Author: unknown (" ++ str_of_nat n ++ str " message(s))".
Proof.
  split; [reflexivity|].
  apply (proj2 (proj2 (proj2
           (legacy_elements_are_unknown (rt := sample_runtime) (JStr (str "old note")) eq_refl)))
           plain_load None legacy_file).
  - split; reflexivity.
  - reflexivity.
  - repeat constructor.
  - left. reflexivity.
Defined.

Lemma three_saves_are_saved :
  Forall saving three_saves
  /\ all_saved (rt := sample_runtime) three_saves None
  /\ Forall (fun mi => converts (rt := sample_runtime) None (entry_of mi) = true)
       three_saves.
Proof.
  split; [|split].
  - repeat constructor; discriminate.
  - vm_compute. split; [reflexivity|]. split; [reflexivity|].
    split; [reflexivity | exact I].
  - repeat constructor.
Qed.

Lemma saves_then_load_counts_witness :
  Forall saving three_saves
  /\ all_saved three_saves None
  /\ (exists t g,
        file_after_all three_saves None = Some t
        /\ group_entries (List.map entry_of three_saves) = inr g
        /\ total_entries g = 3
        /\ fst (sample_handle plain_load (file_after_all three_saves None))
           = Done tt
        /\ carried (str "Saved messages:")
             (replies (sample_handle plain_load
                         (file_after_all three_saves None)))
           = Some (join nl (flat_map (group_block None) g)))
  /\ sample_handle plain_load (file_after_all [] None)
     = (Done tt, World None [no_data_reply]).
Proof.
  destruct three_saves_are_saved as (Hs & Ha & Hc).
  split; [exact Hs|]. split; [exact Ha|]. split.
  - destruct (saves_then_load_counts (rt := sample_runtime) sample_load_dump
                plain_load Hs Ha Hc eq_refl eq_refl)
      as (t & g & Hf & _ & Hg & Hn & Hd & _ & Hcar & _).
    exists t, g.
    split; [exact Hf|]. split; [exact Hg|]. split; [exact Hn|].
    split; [exact Hd | exact Hcar].
  - destruct (saves_then_load_counts (rt := sample_runtime) sample_load_dump
                (ms := []) plain_load (Forall_nil _) I (Forall_nil _)
                eq_refl eq_refl) as [_ Hh].
    exact Hh.
Defined.




(** ** The further properties at the sample inputs *)

Lemma other_messages_are_ignored_witness :
  sample_handle greeting (Some legacy_file)
  = (Done tt, World (Some legacy_file) []).
Proof.
  exact (proj2 (other_messages_are_ignored (rt := sample_runtime) greeting
                  (Some legacy_file)) eq_refl eq_refl).
Defined.

Lemma save_appends_witness :
  saving ann_saves
  /\ sample_handle ann_saves (Some legacy_file)
     = (Done tt,
        World (Some (Encoded (JList (legacy_data ++ [entry_of ann_saves]))))
          [saved_reply])
  /\ sample_handle ann_saves (Some binary_file)
     = (Raised UnicodeDecodeError, World (Some binary_file) [])
  /\ (exists written,
        sample_handle surrogate_save (Some legacy_file)
        = (Raised UnicodeEncodeError, World (Some written) [])
        /\ existing_entries (Some written) = [])
  /\ file_after (sample_handle greeting (Some legacy_file)) = Some legacy_file.
Proof.
  assert (Hs : saving ann_saves) by (split; [reflexivity | discriminate]).
  assert (Hu : saving surrogate_save) by (split; [reflexivity | discriminate]).
  pose proof (save_appends (rt := sample_runtime) sample_load_dump
                ann_saves (Some legacy_file)) as [A _].
  pose proof (save_appends (rt := sample_runtime) sample_load_dump
                ann_saves (Some binary_file)) as [B _].
  pose proof (save_appends (rt := sample_runtime) sample_load_dump
                surrogate_save (Some legacy_file)) as [U _].
  pose proof (save_appends (rt := sample_runtime) sample_load_dump
                greeting (Some legacy_file)) as [_ G].
  split; [exact Hs|]. split; [|split; [|split]].
  - exact (proj1 (proj2 (proj2 (A Hs) legacy_data
                           (Encoded (JList (legacy_data ++ [entry_of ann_saves])))
                           None eq_refl eq_refl))).
  - exact (proj1 (B Hs) UnicodeDecodeError eq_refl).
  - exists (Garbled []). split; [|reflexivity].
    exact (proj2 (proj2 (U Hu) legacy_data (Garbled [])
                    (Some UnicodeEncodeError) eq_refl eq_refl)).
  - apply G. intros [H _]. discriminate H.
Defined.

Lemma own_store_raises_only_library_errors_witness :
  store_ok (Some legacy_file)
  /\ store_ok (file_after (sample_handle ann_saves (Some legacy_file)))
  /\ store_ok (Some year_9999_file)
  /\ fst (sample_handle berlin_load (Some year_9999_file)) = Raised OverflowError
  /\ ((load_argument berlin_load <> []
       /\ ZoneInfo (load_argument berlin_load) = inl OverflowError)
      \/ (exists t,
            Some year_9999_file = Some t /\ json_load t = inl OverflowError)
      \/ (exists written,
            json_dump (JList (existing_entries (Some year_9999_file)
                              ++ [entry_of berlin_load]))
            = (written, Some OverflowError))
      \/ (exists tz_obj x s,
            In x (existing_entries (Some year_9999_file))
            /\ entry_timestamp (kept_entry x) = JStr s
            /\ converted_timestamp tz_obj s = inl OverflowError)).
Proof.
  assert (Hok : store_ok (rt := sample_runtime) (Some legacy_file))
    by (repeat constructor).
  assert (Hok' : store_ok (rt := sample_runtime) (Some year_9999_file))
    by (repeat constructor).
  split; [exact Hok|]. split; [|split; [exact Hok' | split; [reflexivity|]]].
  - apply (proj1 (own_store_raises_only_library_errors (rt := sample_runtime)
                    sample_load_dump ann_saves Hok)).
    intros e. vm_compute. discriminate.
  - apply (proj2 (own_store_raises_only_library_errors (rt := sample_runtime)
                    sample_load_dump berlin_load Hok') OverflowError).
    reflexivity.
Defined.

Lemma load_raises_on_unshowable_witness :
  fst (sample_handle plain_load (Some legacy_file)) = Done tt
  /\ sample_handle plain_load (Some unshowable_file)
     = (Raised TypeError, World (Some unshowable_file) [])
  /\ sample_handle berlin_load (Some year_9999_file)
     = (Raised OverflowError, World (Some year_9999_file) []).
Proof.
  assert (Hl : loading plain_load None) by (split; reflexivity).
  assert (Hb : loading berlin_load (Some (str "Europe/Berlin"))).
  { split; [reflexivity|]. exists (str "Europe/Berlin"). split; reflexivity. }
  split; [|split].
  - exact (proj1 (load_raises_on_unshowable (rt := sample_runtime)
                    legacy_file Hl eq_refl) eq_refl).
  - exact (proj1 (proj2 (load_raises_on_unshowable (rt := sample_runtime)
                           unshowable_file Hl eq_refl)) eq_refl).
  - exact (proj1 (proj2 (proj2 (load_raises_on_unshowable (rt := sample_runtime)
                                  year_9999_file Hb eq_refl))
                    OverflowError eq_refl)).
Defined.

Lemma grouping_is_a_stable_partition_witness :
  group_entries legacy_data = inr legacy_groups
  /\ Permutation (concat (List.map snd legacy_groups))
       (List.map kept_entry legacy_data)
  /\ Forall (fun item => subseq (snd item) (List.map kept_entry legacy_data))
       legacy_groups.
Proof.
  split; [reflexivity|].
  apply (grouping_is_a_stable_partition legacy_data). reflexivity.
Defined.

Lemma groups_have_distinct_keys_witness :
  keys_distinct legacy_groups
  /\ group_entries (legacy_data ++ [entry_of bob_saves])
     = inr (legacy_groups ++ [(KStr (str "bob"), [entry_of bob_saves])]).
Proof.
  destruct (groups_have_distinct_keys legacy_data (g := legacy_groups) eq_refl)
    as (H1 & _ & H3).
  split; [exact H1|].
  apply (H3 (entry_of bob_saves) (KStr (str "bob")) eq_refl).
  repeat constructor.
Defined.

Lemma load_of_something_answers_witness :
  exists first rest,
    replies (sample_handle plain_load (Some legacy_file)) = first :: rest
    /\ startswith first (str "Saved messages:" ++ nl ++ str "Author: ") = true.
Proof.
  apply (proj1 (load_of_something_answers (rt := sample_runtime)
                  (m := plain_load) (tz_obj := None) legacy_file
                  (v := JList legacy_data)
                  (conj eq_refl eq_refl) eq_refl
                  ltac:(repeat constructor))).
  discriminate.
Defined.

Lemma saved_payload_is_trimmed_witness :
  skipn 6 (content ann_saves) = str "  " ++ str "buy milk" ++ str " "
  /\ exists pre post c l,
       skipn 6 (content ann_saves) = pre ++ (c :: l) ++ post
       /\ forallb isspace pre = true
       /\ forallb isspace post = true
       /\ isspace c = false
       /\ isspace (last (c :: l) c) = false
       /\ exists written failure,
            json_dump
              (JList (legacy_data
                      ++ [JDict [(str "author", JStr (str "ann"));
                                 (str "timestamp",
                                  JStr (str "2024-05-01T12:00:00+00:00"));
                                 (str "payload", JStr (c :: l))]]))
            = (written, failure)
            /\ file_after (sample_handle ann_saves (Some legacy_file))
               = Some written.
Proof.
  assert (Hs : saving ann_saves) by (split; [reflexivity | discriminate]).
  split; [reflexivity|].
  destruct (saved_payload_is_trimmed (rt := sample_runtime) (Some legacy_file) Hs)
    as (pre & post & c & l & H1 & H2 & H3 & H4 & H5 & H6).
  exists pre, post, c, l.
  split; [exact H1|]. split; [exact H2|]. split; [exact H3|].
  split; [exact H4|]. split; [exact H5|].
  destruct (H6 legacy_data eq_refl) as (written & failure & Hd & Hf & _).
  exists written, failure. split; [exact Hd | exact Hf].
Defined.

Lemma different_texts_are_shown_differently_witness :
  str "a" <> str "a "
  /\ json_dumps (JStr (str "a")) <> json_dumps (JStr (str "a "))
  /\ payload_line 1 (JStr (str "a")) <> payload_line 1 (JStr (str "a ")).
Proof.
  assert (Hne : str "a" <> str "a ") by discriminate.
  split; [exact Hne|].
  exact (different_texts_are_shown_differently (rt := sample_runtime) 1 Hne).
Defined.

Lemma every_element_is_listed_witness :
  In (JInt 7) legacy_data
  /\ exists parts k n idx,
       fst (sample_handle plain_load (Some legacy_file)) = Done tt
       /\ carried (str "Saved messages:")
            (replies (sample_handle plain_load (Some legacy_file)))
          = Some (join nl parts)
       /\ shown_in_group parts k n idx
            (str "  " ++ str_of_nat idx ++ str ") " ++ str "7")
            (str "       Timestamp: None").
Proof.
  assert (Hin : In (JInt 7) legacy_data) by (right; left; reflexivity).
  split; [exact Hin|].
  exact (every_element_is_listed (rt := sample_runtime) (m := plain_load)
           (tz_obj := None) legacy_file (v := JList legacy_data) (JInt 7)
           (conj eq_refl eq_refl) eq_refl ltac:(repeat constructor) Hin).
Defined.

Lemma rendering_is_the_blocks_witness :
  groups_ok None legacy_groups
  /\ render_parts None legacy_groups
     = inr [str "Author: unknown (2 message(s))";
            str "  1) " ++ quote (str "old note");
            str "       Timestamp: None";
            str "  2) 7";
            str "       Timestamp: None";
            [];
            str "Author: ann (1 message(s))";
            str "  1) " ++ quote (str "hi");
            str "       Timestamp: yesterday";
            []].
Proof.
  assert (Hok : groups_ok (rt := sample_runtime) None legacy_groups)
    by (repeat constructor).
  split; [exact Hok|].
  apply (proj1 (rendering_is_the_blocks (rt := sample_runtime) None
                  legacy_groups)).
  split; [exact Hok | reflexivity].
Defined.

Lemma pagination_between_fences_witness :
  str "json" <> []
  /\ paginate saved_header long_text (Some (str "json"))
     = (saved_header ++ nl ++ fenced (str "json") (hd [] (slices long_text)))
       :: List.map (fenced (str "json")) (tl (slices long_text))
  /\ length (paginate saved_header long_text (Some (str "json")))
     = length (paginate saved_header long_text None).
Proof.
  assert (Hl : str "json" <> []) by discriminate.
  assert (Ht : 0 < length long_text)
    by (unfold long_text; rewrite repeat_length; lia).
  destruct (pagination_between_fences saved_header long_text Hl Ht)
    as (H1 & H2 & _).
  split; [exact Hl|]. split; [exact H1 | exact H2].
Defined.

Lemma load_ignores_the_sender_witness :
  author plain_load <> author zoe_loads
  /\ sample_handle plain_load (Some legacy_file)
     = sample_handle zoe_loads (Some legacy_file).
Proof.
  split; [discriminate|].
  exact (load_ignores_the_sender (rt := sample_runtime) plain_load zoe_loads
           (Some legacy_file) eq_refl eq_refl).
Defined.

Lemma sample_float_repr_one_line (f : spec_float) :
  one_line (sample_float_repr f) = true.
Proof.
  unfold sample_float_repr.
  destruct f as [[]|[]| |[] m e]; try reflexivity.
  repeat (destruct m as [m|m|]; try reflexivity).
  destruct e as [|p|p]; try reflexivity.
  repeat (destruct p as [p|p|]; try reflexivity).
Qed.

Lemma payload_line_is_one_line_witness :
  one_line (payload_line 3 (JStr (str "two" ++ nl ++ str "lines"))) = true
  /\ one_line (payload_line 3 (JList [JFloat (S754_zero false); JStr nl]))
     = true.
Proof.
  destruct (payload_line_is_one_line (rt := sample_runtime) 3) as [H1 H2].
  split; [apply H1|]. apply H2. exact sample_float_repr_one_line.
Defined.

Lemma load_messages_are_short_witness :
  Forall (fun msg => length msg <= 1916)
    (replies (sample_handle berlin_load (Some legacy_file))).
Proof.
  apply (proj2 (load_messages_are_short (rt := sample_runtime))
           berlin_load (Some (str "Europe/Berlin")) (Some legacy_file)).
  split; [reflexivity|]. exists (str "Europe/Berlin"). split; reflexivity.
Defined.

Lemma zone_changes_timestamps_only_witness :
  (exists parts1 parts2,
     carried (str "Saved messages:")
       (replies (sample_handle plain_load (Some legacy_file)))
     = Some (join nl parts1)
     /\ carried (str "Saved messages:")
          (replies (sample_handle berlin_load (Some legacy_file)))
        = Some (join nl parts2)
     /\ Forall2 same_but_timestamp parts1 parts2)
  /\ Forall2 same_but_timestamp
       [str "Author: ann (1 message(s))";
        str "  1) " ++ quote (str "hi");
        str "       Timestamp: 2024-05-01T12:00:00+00:00 local";
        []]
       [str "Author: ann (1 message(s))";
        str "  1) " ++ quote (str "hi");
        str "       Timestamp: 2024-05-01T12:00:00+00:00 Europe/Berlin";
        []].
Proof.
  destruct (zone_changes_timestamps_only (rt := sample_runtime) None
              (Some (str "Europe/Berlin"))) as [H1 H2].
  split.
  - apply (H2 plain_load berlin_load legacy_file (JList legacy_data)).
    + split; reflexivity.
    + split; [reflexivity|]. exists (str "Europe/Berlin"). split; reflexivity.
    + reflexivity.
    + repeat constructor.
    + repeat constructor.
  - apply (H1 [(KStr (str "ann"), [naive_entry])]); reflexivity.
Defined.
